(** * A shallow embedding of [bot.py]: the session table, the snapshot relay
      ([upload_photo]) and the photo handler ([image_handler]).

    Conventions.
    - A Python [str] is represented by its UTF-8 encoding, a [string] whose
      characters are the bytes.  Every operation [bot.py] applies to a str
      (equality, emptiness, the regular expression, the ASCII test of
      [base64.b64decode]) gives the same answer on the encoding.  A str that
      holds a lone surrogate, as [json.loads] yields from the escape \ud800,
      has no UTF-8 encoding: among the values of a request it has a
      constructor of its own, and carries the encoding in which each surrogate
      is passed through as the three bytes UTF-8 would give it.
    - The strs of the configuration ([HOST_URL_CLEAN], [WEB_UPLOAD_DIR]) encode
      as UTF-8: start-up prints the host URL (lines 53 and 73), which needs it
      under the strict error handler of a UTF-8 standard output.
    - [Bot.send_photo] is a coroutine function, as every method of the bot is:
      a call returns a coroutine object, and the request to Telegram is made
      when that object is awaited.
    - A Python [bytes] object is a [list Byte.byte].
    - Only exceptions deriving from [Exception] are modelled; an exception is
      a class name and the text [str(e)].
    - The statements run on the SQLite connection succeed once their
      parameters are bound; the table is only reached through the two
      statements of [bot.py]. *)

From Stdlib Require Import ZArith String Ascii List Lia Bool.
From Stdlib.Strings Require Import Byte.
From Stdlib Require Import SpecFloat.
From stdpp Require Import base tactics option list strings pretty.
Import ListNotations.

Local Open Scope string_scope.
Local Open Scope Z_scope.
Set Warnings "-register-all".

(** ** Python values *)

(** Values produced by [json.loads] (and Python's [None]). *)
Inductive json : Type :=
| JNull
| JBool (b : bool)
| JInt (n : Z)
| JFloat (f : spec_float)
| JStr (s : string)
| JSurrStr (s : string)        (* a str that holds a lone surrogate *)
| JArr (l : list json)
| JObj (kvs : list (string * json)).

(** Python truth value ([bool(v)], as tested by [if v] and [not v]). *)
Definition truthy (v : json) : bool :=
  match v with
  | JNull => false
  | JBool b => b
  | JInt n => negb (n =? 0)
  | JFloat (S754_zero _) => false
  | JFloat _ => true
  | JStr s | JSurrStr s => negb (String.eqb s "")
  | JArr l => match l with [] => false | _ => true end
  | JObj kvs => match kvs with [] => false | _ => true end
  end.

Record exn : Type := Exn { exn_class : string; exn_str : string }.

Inductive result (A : Type) : Type :=
| Ok (a : A)
| Raise (e : exn).
Arguments Ok {A} a.
Arguments Raise {A} e.

(** [d[k]] of a dict given as its items; [None] when the key is absent.  The
    keys of a dict are distinct, so the first item found is the only one. *)
Fixpoint assoc (k : string) (kvs : list (string * json)) : option json :=
  match kvs with
  | [] => None
  | (k', v) :: rest => if String.eqb k k' then Some v else assoc k rest
  end.

(** [v.get(k)]: defined on dicts only, [None] for a missing key. *)
Definition py_get (v : json) (k : string) : result json :=
  match v with
  | JObj kvs => Ok (default JNull (assoc k kvs))
  | JNull => Raise (Exn "AttributeError" "'NoneType' object has no attribute 'get'")
  | JBool _ => Raise (Exn "AttributeError" "'bool' object has no attribute 'get'")
  | JInt _ => Raise (Exn "AttributeError" "'int' object has no attribute 'get'")
  | JFloat _ => Raise (Exn "AttributeError" "'float' object has no attribute 'get'")
  | JStr _ | JSurrStr _ =>
      Raise (Exn "AttributeError" "'str' object has no attribute 'get'")
  | JArr _ => Raise (Exn "AttributeError" "'list' object has no attribute 'get'")
  end.

Definition nl : string := String (ascii_of_nat 10) EmptyString.

(** ** The [user_sessions] table

    [CREATE TABLE user_sessions (user_id INTEGER, session_id TEXT PRIMARY KEY,
    original_image TEXT)].  The table is the list of its rows in insertion
    order. *)
Module SessionStore.

Record row : Type := Row {
  user_id : Z;
  session_id : string;
  original_image : string
}.

Definition table : Type := list row.

Definition has_id (sid : string) (r : row) : bool :=
  String.eqb (session_id r) sid.

(** [INSERT OR REPLACE INTO user_sessions VALUES (?, ?, ?)]: the rows that
    conflict on the primary key are deleted, then the row is added. *)
Definition insert_or_replace (r : row) (t : table) : table :=
  (List.filter (fun r' => negb (has_id (session_id r) r')) t ++ [r])%list.

(** [SELECT ... FROM user_sessions WHERE session_id = ?] then
    [fetchone()]: the first matching row, if any. *)
Definition select_row (sid : string) (t : table) : option row :=
  List.find (has_id sid) t.

(** [SELECT user_id FROM user_sessions WHERE session_id = ?], [fetchone()]. *)
Definition select_user_id (sid : string) (t : table) : option Z :=
  option_map user_id (select_row sid t).

(** The interface of the specification. *)
Definition put (sid : string) (u : Z) (ref : string) (t : table) : table :=
  insert_or_replace (Row u sid ref) t.

Definition get (sid : string) (t : table) : option (Z * string) :=
  option_map (fun r => (user_id r, original_image r)) (select_row sid t).

(** Number of rows holding a session id. *)
Definition count_id (sid : string) (t : table) : nat :=
  length (List.filter (has_id sid) t).

(** The primary-key constraint. *)
Definition unique_ids (t : table) : Prop := NoDup (map session_id t).

(** A run of [put]s, oldest first, from a given table. *)
Definition puts (ops : list (string * Z * string)) (t : table) : table :=
  fold_left (fun acc op => put (fst (fst op)) (snd (fst op)) (snd op) acc) ops t.

End SessionStore.

(** ** Regular expressions, as [re.match] runs them

    The fragment of Python's [re] that [upload_photo] uses: literal
    characters, one character of a class, a greedy starred class, [$] and
    capturing groups.  Matching is anchored at the start of the subject, is
    greedy and backtracks; it need not consume the whole subject. *)
Module Re.

Inductive rx : Type :=
| Chr (c : ascii)              (* a literal character *)
| Cls (p : ascii -> bool)      (* one character of a class *)
| Star (p : ascii -> bool)     (* class*, greedy *)
| Eos                          (* $ without re.MULTILINE *)
| GOpen                        (* ( *)
| GClose.                      (* ) *)

(** The literal [s]. *)
Definition lit (s : string) : list rx := map Chr (list_ascii_of_string s).

(** [class+]: one character of the class, then [class*]. *)
Definition plus (p : ascii -> bool) : list rx := [Cls p; Star p].

(** [[^c]] and [.] (any character but a line feed; no re.DOTALL). *)
Definition not_chr (c : ascii) : ascii -> bool := fun a => negb (Ascii.eqb a c).
Definition dot : ascii -> bool := not_chr "010"%char.

(** The matcher.  [pos] is the index of the next character of the subject,
    [s] what is left of it, [st] the start indices of the groups still open
    and [caps] the spans of the groups closed so far, last closed first. *)
Fixpoint go (r : list rx) (pos : nat) (s : list ascii)
         (st : list nat) (caps : list (nat * nat)) {struct r}
  : option (list (nat * nat)) :=
  match r with
  | [] => Some (rev caps)
  | Chr c :: k =>
      match s with
      | c' :: s' => if Ascii.eqb c c' then go k (S pos) s' st caps else None
      | [] => None
      end
  | Cls p :: k =>
      match s with
      | c' :: s' => if p c' then go k (S pos) s' st caps else None
      | [] => None
      end
  | Star p :: k =>
      (fix loop (pos : nat) (s : list ascii) {struct s} :=
         match s with
         | c' :: s' =>
             if p c'
             then match loop (S pos) s' with
                  | Some m => Some m
                  | None => go k pos s st caps
                  end
             else go k pos s st caps
         | [] => go k pos s st caps
         end) pos s
  | Eos :: k =>
      match s with
      | [] => go k pos s st caps
      | [c'] => if Ascii.eqb c' "010"%char then go k pos s st caps else None
      | _ => None
      end
  | GOpen :: k => go k pos s (pos :: st) caps
  | GClose :: k =>
      match st with
      | b :: st' => go k pos s st' ((b, pos) :: caps)
      | [] => None
      end
  end.

Definition slice (s : list ascii) (span : nat * nat) : string :=
  string_of_list_ascii (take (snd span - fst span) (drop (fst span) s)).

(** [re.match(r, s)]: [None], or the groups of the match in order. *)
Definition rmatch (r : list rx) (s : string) : option (list string) :=
  let l := list_ascii_of_string s in
  option_map (map (slice l)) (go r 0 l [] []).

End Re.

(** The pattern of [upload_photo], in Python's notation
    data: ( image/ [^;]+ ) ;base64, ( . * ) $   written without the spaces. *)
Definition data_uri_re : list Re.rx :=
  (Re.lit "data:" ++
   [Re.GOpen] ++ Re.lit "image/" ++ Re.plus (Re.not_chr ";"%char) ++ [Re.GClose] ++
   Re.lit ";base64," ++
   [Re.GOpen; Re.Star Re.dot; Re.GClose] ++
   [Re.Eos])%list.

(** The same pattern compiled by hand: what is left of [s] after the literal
    [pre], the longest run of characters of a class, and what follows it. *)
Fixpoint strip (pre s : list ascii) : option (list ascii) :=
  match pre with
  | [] => Some s
  | c :: pre' =>
      match s with
      | c' :: s' => if Ascii.eqb c c' then strip pre' s' else None
      | [] => None
      end
  end.

Fixpoint run (p : ascii -> bool) (s : list ascii) : list ascii :=
  match s with
  | c :: s' => if p c then c :: run p s' else []
  | [] => []
  end.

Fixpoint after (p : ascii -> bool) (s : list ascii) : list ascii :=
  match s with
  | c :: s' => if p c then after p s' else s
  | [] => []
  end.

(** Where [$] matches: at the end, or before a line feed that ends the
    subject. *)
Definition at_end (s : list ascii) : bool :=
  match s with
  | [] => true
  | [c] => Ascii.eqb c "010"%char
  | _ => false
  end.

Definition match_data_uri (s : string) : option (list string) :=
  match strip (list_ascii_of_string "data:") (list_ascii_of_string s) with
  | None => None
  | Some l1 =>
      match strip (list_ascii_of_string "image/") l1 with
      | None => None
      | Some l2 =>
          match run (Re.not_chr ";"%char) l2 with
          | [] => None
          | sub =>
              match strip (list_ascii_of_string ";base64,")
                          (after (Re.not_chr ";"%char) l2) with
              | None => None
              | Some l3 =>
                  if at_end (after Re.dot l3)
                  then Some [string_of_list_ascii
                               (list_ascii_of_string "image/" ++ sub)%list;
                             string_of_list_ascii (run Re.dot l3)]
                  else None
              end
          end
      end
  end.

(** [c in s] *)
Definition has_chr (c : ascii) (s : string) : bool :=
  existsb (Ascii.eqb c) (list_ascii_of_string s).

(** ** [base64] *)
Module Base64.

Definition byte_val (b : byte) : Z := Z.of_N (Byte.to_N b).

Definition byte_of (z : Z) : byte :=
  default Byte.x00 (Byte.of_N (Z.to_N (Z.land z 255))).

Definition code (c : ascii) : Z := Z.of_N (N_of_ascii c).

(** [table_a2b_base64] of [binascii]: the value of a character of the
    standard alphabet. *)
Definition a2b (c : ascii) : option Z :=
  let n := code c in
  if (65 <=? n) && (n <=? 90) then Some (n - 65)
  else if (97 <=? n) && (n <=? 122) then Some (n - 71)
  else if (48 <=? n) && (n <=? 57) then Some (n + 4)
  else if n =? 43 then Some 62
  else if n =? 47 then Some 63
  else None.

Definition incorrect_padding : exn := Exn "binascii.Error" "Incorrect padding".

Definition bad_length (nbytes : nat) : exn :=
  Exn "binascii.Error"
      ("Invalid base64-encoded string: number of data characters (" +:+
       pretty (Z.of_nat nbytes / 3 * 4 + 1) +:+
       ") cannot be 1 more than a multiple of 4").

(** [binascii.a2b_base64] with [strict_mode] off.  [out] is the output so
    far, last byte first. *)
Fixpoint a2b_base64 (s : list ascii) (quad_pos : nat) (leftchar : Z)
         (pads : nat) (out : list byte) : result (list byte) :=
  match s with
  | [] =>
      match quad_pos with
      | O => Ok (rev out)
      | S O => Raise (bad_length (length out))
      | _ => Raise incorrect_padding
      end
  | c :: s' =>
      if Ascii.eqb c "="%char then
        if (2 <=? quad_pos)%nat then
          if (4 <=? quad_pos + S pads)%nat then Ok (rev out)
          else a2b_base64 s' quad_pos leftchar (S pads) out
        else a2b_base64 s' quad_pos leftchar pads out
      else
        match a2b c with
        | None => a2b_base64 s' quad_pos leftchar pads out
        | Some this_ch =>
            match quad_pos with
            | 0%nat => a2b_base64 s' 1%nat this_ch 0%nat out
            | 1%nat =>
                a2b_base64 s' 2%nat (Z.land this_ch 15) 0%nat
                  (byte_of (Z.lor (Z.shiftl leftchar 2) (Z.shiftr this_ch 4)) :: out)
            | 2%nat =>
                a2b_base64 s' 3%nat (Z.land this_ch 3) 0%nat
                  (byte_of (Z.lor (Z.shiftl leftchar 4) (Z.shiftr this_ch 2)) :: out)
            | _ =>
                a2b_base64 s' 0%nat 0 0%nat
                  (byte_of (Z.lor (Z.shiftl leftchar 6) this_ch) :: out)
            end
        end
  end.

Definition is_ascii (c : ascii) : bool := code c <? 128.

(** [base64.b64decode(s)] on a str: the ASCII test of
    [_bytes_from_decode_data], then [a2b_base64]. *)
Definition b64decode (s : string) : result (list byte) :=
  let l := list_ascii_of_string s in
  if forallb is_ascii l then a2b_base64 l 0 0 0 []
  else Raise (Exn "ValueError" "string argument should contain only ASCII characters").

(** The URL-safe alphabet: [A-Z a-z 0-9 - _]. *)
Definition urlsafe_chr (i : Z) : ascii :=
  ascii_of_N (Z.to_N
    (if i <? 26 then i + 65
     else if i <? 52 then i + 71
     else if i <? 62 then i - 4
     else if i =? 62 then 45
     else 95)).

(** [base64.urlsafe_b64encode]. *)
Fixpoint urlsafe_b64encode (bs : list byte) : list ascii :=
  match bs with
  | [] => []
  | [a] =>
      let a := byte_val a in
      [urlsafe_chr (Z.shiftr a 2); urlsafe_chr (Z.shiftl (Z.land a 3) 4);
       "="%char; "="%char]
  | [a; b] =>
      let a := byte_val a in
      let b := byte_val b in
      [urlsafe_chr (Z.shiftr a 2);
       urlsafe_chr (Z.lor (Z.shiftl (Z.land a 3) 4) (Z.shiftr b 4));
       urlsafe_chr (Z.shiftl (Z.land b 15) 2);
       "="%char]
  | a :: b :: c :: rest =>
      let a := byte_val a in
      let b := byte_val b in
      let c := byte_val c in
      urlsafe_chr (Z.shiftr a 2) ::
      urlsafe_chr (Z.lor (Z.shiftl (Z.land a 3) 4) (Z.shiftr b 4)) ::
      urlsafe_chr (Z.lor (Z.shiftl (Z.land b 15) 2) (Z.shiftr c 6)) ::
      urlsafe_chr (Z.land c 63) ::
      urlsafe_b64encode rest
  end.

(** [bytes.rstrip(b'=')]. *)
Fixpoint rstrip_pad (l : list ascii) : list ascii :=
  match l with
  | [] => []
  | c :: r =>
      match rstrip_pad r with
      | [] => if Ascii.eqb c "="%char then [] else [c]
      | r' => c :: r'
      end
  end.

(** The characters a URL-safe token may contain. *)
Definition url_safe (c : ascii) : bool :=
  let n := code c in
  ((65 <=? n) && (n <=? 90)) || ((97 <=? n) && (n <=? 122)) ||
  ((48 <=? n) && (n <=? 57)) || (n =? 45) || (n =? 95).

End Base64.

(** ** Effects

    A handler runs against the process state: the [user_sessions] table and
    the calls made so far to the collaborators, oldest first. *)

(** [InlineKeyboardButton(label, url=...)]; the markup is the rows of
    buttons. *)
Record button : Type := Button { label : string; url : json }.
Definition keyboard : Type := list (list button).

Inductive event : Type :=
| DbSelect (param : json)                  (* c.execute("SELECT user_id ...", (param,)) *)
| DbInsert (r : SessionStore.row)          (* c.execute("INSERT OR REPLACE ...", ...) *)
| DbCommit                                 (* conn.commit() *)
| SendPhoto (chat_id : Z) (photo : list byte) (name caption : string)
                                           (* bot.send_photo(...) is called *)
| Deliver (chat_id : Z) (photo : list byte) (name caption : string)
                                           (* the sendPhoto request to Telegram *)
| GetFile (file_id : string)
| Makedirs (dir : string)
| Download (file_id path : string)
| OpenRb (path : string)
| Post (target : string) (filename : string) (timeout : Z)
| ReplyText (text : string) (markup : option keyboard).

Record world : Type := World {
  db : SessionStore.table;
  trace : list event
}.

Definition log (e : event) (w : world) : world :=
  World (db w) (trace w ++ [e])%list.

(** What [requests.post] returns, as far as the handler reads it: [resp.ok]
    and the outcome of [resp.json()]. *)
Record response : Type := Response { ok : bool; json_body : result json }.

(** The collaborators and the configuration of the process.  A call that
    Python makes for its effect returns [None] when it succeeds and the
    exception it raises otherwise. *)
Record env : Type := Env {
  HOST_URL_CLEAN : string;
  WEB_UPLOAD_DIR : string;
  os_path_join : string -> string -> string;
  time_now : Z;                                         (* int(time.time()) *)
  token_bytes : nat -> list byte;                       (* secrets.token_bytes *)
  token_bytes_length : forall n, length (token_bytes n) = n;
  get_file : string -> option exn;                      (* context.bot.get_file *)
  os_makedirs : string -> option exn;
  download_to_drive : string -> string -> option exn;
  open_rb : string -> option exn;                       (* open(path, 'rb') *)
  requests_post : string -> string -> Z -> result response;
  reply_text : string -> option keyboard -> option exn; (* Message.reply_text *)
  (* the sendPhoto request, made when the coroutine of bot.send_photo is
     awaited *)
  send_photo : Z -> list byte -> string -> string -> option exn;
  (* the TEXT value SQLite gives a bound parameter that is not None; a str is
     bound as its UTF-8 encoding, and one that has none is refused *)
  sqlite_text : json -> result string;
  sqlite_text_str : forall s, sqlite_text (JStr s) = Ok s;
  sqlite_text_surrogate :
    forall s, exists e, sqlite_text (JSurrStr s) = Raise e /\
                        exn_class e = "UnicodeEncodeError";
  (* str(v) for a value that is not a str *)
  py_repr : json -> string
}.

(** State and exceptions. *)
Definition M (A : Type) : Type := world -> result A * world.

#[global] Instance M_ret : MRet M := fun A a w => (Ok a, w).

#[global] Instance M_bind : MBind M := fun A B f m w =>
  match m w with
  | (Ok a, w') => f a w'
  | (Raise e, w') => (Raise e, w')
  end.

Definition raise {A : Type} (e : exn) : M A := fun w => (Raise e, w).

(** [try: m  except Exception as e: h e] *)
Definition catch {A : Type} (m : M A) (h : exn -> M A) : M A := fun w =>
  match m w with
  | (Ok a, w') => (Ok a, w')
  | (Raise e, w') => h e w'
  end.

Definition lift {A : Type} (r : result A) : M A := fun w => (r, w).

(** A call made for its effect: it is recorded, then succeeds or raises.
    For a coroutine function this is the call together with the [await] of
    its result, as in [await context.bot.get_file(...)]. *)
Definition call (e : event) (outcome : option exn) : M unit := fun w =>
  match outcome with
  | None => (Ok tt, log e w)
  | Some x => (Raise x, log e w)
  end.

Definition db_select_user_id (E : env) (param : json) : M (option Z) := fun w =>
  match sqlite_text E param with
  | Ok sid => (Ok (SessionStore.select_user_id sid (db w)), log (DbSelect param) w)
  | Raise e => (Raise e, log (DbSelect param) w)
  end.

Definition db_insert_or_replace (E : env) (uid : Z) (sid : string) (image : json)
  : M unit := fun w =>
  match sqlite_text E image with
  | Ok ref =>
      let r := SessionStore.Row uid sid ref in
      (Ok tt, World (SessionStore.insert_or_replace r (db w))
                    (trace w ++ [DbInsert r])%list)
  | Raise e => (Raise e, w)
  end.

Definition db_commit : M unit := call DbCommit None.

(** A coroutine object: the computation that runs when the object is
    awaited.  One that is never awaited never runs. *)
Definition coroutine (A : Type) : Type := M A.


(** [bot.send_photo(chat_id=chat_id, photo=photo, caption=caption)]: the call
    is recorded and returns the coroutine object; the request is made, and
    may raise, when that object is awaited. *)
Definition bot_send_photo (E : env) (chat_id : Z) (photo : list byte)
           (name caption : string) : M (coroutine unit) :=
  call (SendPhoto chat_id photo name caption) None;;
  mret (call (Deliver chat_id photo name caption)
             (send_photo E chat_id photo name caption)).

(** [requests.post(target, files={'image': (filename, fh)}, timeout=timeout)] *)
Definition http_post (E : env) (target filename : string) (timeout : Z) : M response :=
  fun w => (requests_post E target filename timeout, log (Post target filename timeout) w).

(** ** The snapshot relay: [upload_photo] *)

Record http_response : Type := HttpResponse { status : Z; body : json }.

(** [jsonify({...}), status] *)
Definition jsonify (items : list (string * json)) (st : Z) : http_response :=
  HttpResponse st (JObj items).

Definition error_response (msg : string) (st : Z) : http_response :=
  jsonify [("ok", JBool false); ("error", JStr msg)] st.

Definition error_detail (msg : string) (e : exn) (st : Z) : http_response :=
  jsonify [("ok", JBool false); ("error", JStr msg); ("detail", JStr (exn_str e))] st.

(** [re.match(data_uri_re, image_data)]; a subject that is not a str is a
    TypeError. *)
Definition re_match (image_data : json) : result (option (list string)) :=
  match image_data with
  | JStr s | JSurrStr s => Ok (Re.rmatch data_uri_re s)
  | _ => Raise (Exn "TypeError" "expected string or bytes-like object")
  end.

(** [m.group(i)], for [i >= 1]. *)
Definition group (i : nat) (m : list string) : string := nth (i - 1) m "".

Definition snapshot_name : string := "snapshot.jpg".
Definition snapshot_caption : string := "📸 New snapshot from camera link".

(** [request_json] is [request.get_json(silent=True)]: [None] when the body
    is not JSON.  Line 132 calls [bot.send_photo] and does not await the
    coroutine it returns: the object is dropped. *)
Definition upload_photo (E : env) (request_json : option json) : M http_response :=
  let data := default JNull request_json in
  if negb (truthy data) then mret (error_response "invalid json" 400)
  else
    session ← lift (py_get data "session");
    image_data ← lift (py_get data "image");
    if negb (truthy session) || negb (truthy image_data)
    then mret (error_response "missing fields" 400)
    else
      row ← db_select_user_id E session;
      match row with
      | None => mret (error_response "invalid session" 404)
      | Some user_id =>
          m ← lift (re_match image_data);
          match m with
          | None => mret (error_response "invalid image data" 400)
          | Some groups =>
              let b64 := group 2 groups in
              match Base64.b64decode b64 with
              | Raise e => mret (error_detail "base64 decode failed" e 400)
              | Ok image_bytes =>
                  failure ←
                    catch (_ ← bot_send_photo E user_id image_bytes
                                 snapshot_name snapshot_caption;
                           mret None)
                          (fun e => mret (Some e));
                  match failure with
                  | Some e => mret (error_detail "telegram send failed" e 500)
                  | None => mret (jsonify [("ok", JBool true)] 200)
                  end
              end
          end
      end.

(** ** The photo handler: [image_handler] *)

(** [update.message] and [update.effective_user.id]; either object may be
    [None]. *)
Record update : Type := Update {
  message_photo : option (list string);   (* file ids of update.message.photo *)
  effective_user_id : option Z
}.

Definition none_has_no (attr : string) : exn :=
  Exn "AttributeError" ("'NoneType' object has no attribute '" +:+ attr +:+ "'").

(** [update.message.<attr>] *)
Definition message_attr (u : update) (attr : string) : M (list string) :=
  match message_photo u with
  | Some photo => mret photo
  | None => raise (none_has_no attr)
  end.

(** [update.effective_user.id] *)
Definition user_id_of (u : update) : M Z :=
  match effective_user_id u with
  | Some uid => mret uid
  | None => raise (none_has_no "id")
  end.

(** [photo[-1]] *)
Definition last_photo (photo : list string) : M string :=
  match last photo with
  | Some p => mret p
  | None => raise (Exn "IndexError" "tuple index out of range")
  end.

(** [update.message.reply_text(text, reply_markup=markup)] *)
Definition message_reply_text (E : env) (u : update) (text : string)
           (markup : option keyboard) : M unit :=
  _ ← message_attr u "reply_text";
  call (ReplyText text markup) (reply_text E text markup).

(** [secrets.token_urlsafe(nbytes)] *)
Definition token_urlsafe (E : env) (nbytes : nat) : string :=
  string_of_list_ascii
    (Base64.rstrip_pad (Base64.urlsafe_b64encode (token_bytes E nbytes))).

(** [f"{v}"] *)
Definition fmt (E : env) (v : json) : string :=
  match v with
  | JStr s | JSurrStr s => s
  | _ => py_repr E v
  end.

Definition file_name (uid timestamp : Z) : string :=
  "image_" +:+ pretty uid +:+ "_" +:+ pretty timestamp +:+ ".jpg".

(** The default public URL (line 166). *)
Definition default_url (E : env) (filename : string) : string :=
  HOST_URL_CLEAN E +:+ "/uploads/" +:+ filename.

(** The outcome of the upload attempt: [uploaded_remote], [image_url] and
    [upload_error]. *)
Record upload_outcome : Type := Outcome {
  uploaded_remote : bool;
  image_url : json;
  upload_error : option string
}.

(** The response is read inside the inner [try] (lines 178-185); [image_url]
    is the value the variable holds when the block is entered. *)
Definition read_response (resp : response) (image_url : json) : M upload_outcome :=
  catch
    (j ← lift (json_body resp);
     success ← lift (py_get j "success");
     if truthy success then
       file_url ← lift (py_get j "file_url");
       if truthy file_url then
         image_url' ← lift (py_get j "file_url");
         mret (Outcome true image_url' None)
       else mret (Outcome false image_url None)
     else mret (Outcome false image_url None))
    (fun _ => mret (Outcome false image_url None)).

(** The upload attempt (lines 171-188). *)
Definition resolve_upload (E : env) (file_path filename : string) (image_url : json)
  : M upload_outcome :=
  catch
    (call (OpenRb file_path) (open_rb E file_path);;
     resp ← http_post E (HOST_URL_CLEAN E +:+ "/home.php") filename 30;
     if ok resp then read_response resp image_url
     else mret (Outcome false image_url None))
    (fun e => mret (Outcome false image_url (Some (exn_str e)))).

Definition uploaded_text (E : env) (image_url : json) : string :=
  "✅ Image uploaded to host successfully!" +:+ nl +:+ nl +:+
  "🔗 Link: " +:+ fmt E image_url +:+ nl +:+ nl.

Definition fallback_notice : string :=
  "⚠️ Remote upload failed. A local link was created (may not be accessible publicly).".

(** [err_text] (line 219): empty unless [upload_error] is truthy. *)
Definition err_text (upload_error : option string) : string :=
  match upload_error with
  | Some err =>
      if negb (String.eqb err "")
      then nl +:+ "(Upload to host failed: " +:+ err +:+ ")"
      else ""
  | None => ""
  end.

Definition fallback_text (E : env) (short_url image_url : json)
           (upload_error : option string) : string :=
  fallback_notice +:+ nl +:+ nl +:+
  "Local Link: " +:+ fmt E short_url +:+ nl +:+
  "Direct (assumed) URL: " +:+ fmt E image_url +:+ err_text upload_error +:+ nl +:+ nl.

(** The links of the reply (lines 204-207). *)
Definition link_keyboard (short_url image_url : json) : keyboard :=
  [[Button "Share Link" short_url]; [Button "Direct Image Link" image_url]].

(** The photo is fetched and saved (lines 149-163); the block yields the
    file name and the path of the saved file. *)
Definition download_photo (E : env) (u : update) : M (string * string) :=
  photos ← message_attr u "photo";
  photo ← last_photo photos;
  call (GetFile photo) (get_file E photo);;
  let timestamp := time_now E in
  uid ← user_id_of u;
  let filename := file_name uid timestamp in
  call (Makedirs (WEB_UPLOAD_DIR E)) (os_makedirs E (WEB_UPLOAD_DIR E));;
  let file_path := os_path_join E (WEB_UPLOAD_DIR E) filename in
  call (Download photo file_path) (download_to_drive E photo file_path);;
  mret (filename, file_path).

(** The links are issued and the user is answered (lines 190-225). *)
Definition issue_links (E : env) (u : update) (out : upload_outcome) : M unit :=
  short_url ←
    (if negb (uploaded_remote out) then
       let short_id := token_urlsafe E 8 in
       uid ← user_id_of u;
       db_insert_or_replace E uid short_id (image_url out);;
       db_commit;;
       mret (JStr (HOST_URL_CLEAN E +:+ "/i/" +:+ short_id))
     else mret (image_url out));
  let reply_markup := Some (link_keyboard short_url (image_url out)) in
  if uploaded_remote out then
    message_reply_text E u (uploaded_text E (image_url out)) reply_markup
  else
    message_reply_text E u
      (fallback_text E short_url (image_url out) (upload_error out)) reply_markup.

(** The body of the [try] (lines 149-225). *)
Definition image_handler_body (E : env) (u : update) : M unit :=
  '(filename, file_path) ← download_photo E u;
  out ← resolve_upload E file_path filename (JStr (default_url E filename));
  issue_links E u out.

Definition error_text (e : exn) : string := "❌ Error: " +:+ exn_str e.

(** [image_handler]: the body, and the [except Exception] at its boundary
    (lines 226-227). *)
Definition image_handler (E : env) (u : update) : M unit :=
  catch (image_handler_body E u)
        (fun e => message_reply_text E u (error_text e) None).

(** ** Observations on the calls made *)

(** The calls a handler run has added to the trace. *)
Definition new_events (w w' : world) : list event :=
  drop (length (trace w)) (trace w').

(** The calls of [bot.send_photo], each with the photo handed to it. *)
Definition photos_sent (evs : list event) : list event :=
  List.filter (fun e => match e with SendPhoto _ _ _ _ => true | _ => false end) evs.


(** The rows handed to [INSERT OR REPLACE]. *)
Definition rows_written (evs : list event) : list SessionStore.row :=
  flat_map (fun e => match e with DbInsert r => [r] | _ => [] end) evs.

(** The lookups of the session table. *)
Definition lookups (evs : list event) : list event :=
  List.filter (fun e => match e with DbSelect _ => true | _ => false end) evs.

(** A computation that leaves the table alone: whatever the state, it
    returns with the same rows, and has only added calls that write none. *)
Definition quiet {A : Type} (m : M A) : Prop :=
  forall w, db (snd (m w)) = db w /\
            exists evs, trace (snd (m w)) = (trace w ++ evs)%list /\
                        rows_written evs = [].

(** The classification of the specification (section 4.2): the URL the
    remote host provides, when the response is a success ([resp.ok]), is
    well-formed JSON and holds a truthy [success] and a truthy [file_url]. *)
Definition remote_file_url (resp : response) : option json :=
  if ok resp then
    match json_body resp with
    | Ok j =>
        match py_get j "success", py_get j "file_url" with
        | Ok success, Ok file_url =>
            if truthy success && truthy file_url then Some file_url else None
        | _, _ => None
        end
    | Raise _ => None
    end
  else None.

(** ** Sample collaborators and inputs *)
Module Samples.

(** A driver that binds str parameters only; its message for a str with a
    lone surrogate is the one of the str made of U+D800 alone. *)
Definition bind_text (v : json) : result string :=
  match v with
  | JStr s => Ok s
  | JSurrStr _ =>
      Raise (Exn "UnicodeEncodeError"
                 ("'utf-8' codec can't encode character '\ud800' in position 0: " +:+
                  "surrogates not allowed"))
  | _ => Raise (Exn "sqlite3.ProgrammingError"
                    "Error binding parameter 1: type is not supported")
  end.

(** Collaborators that succeed, but for the three outcomes given. *)
Definition env_of (post : result response) (reply send : option exn) : env :=
  {| HOST_URL_CLEAN := "http://shareimage.42web.io";
     WEB_UPLOAD_DIR := "uploads";
     os_path_join := fun dir name => dir +:+ "/" +:+ name;
     time_now := 1700000000;
     token_bytes := fun n => replicate n Byte.x2a;
     token_bytes_length := fun n => length_replicate n Byte.x2a;
     get_file := fun _ => None;
     os_makedirs := fun _ => None;
     download_to_drive := fun _ _ => None;
     open_rb := fun _ => None;
     requests_post := fun _ _ _ => post;
     reply_text := fun _ _ => reply;
     send_photo := fun _ _ _ _ => send;
     sqlite_text := bind_text;
     sqlite_text_str := fun s => eq_refl;
     sqlite_text_surrogate := fun s => ex_intro _ _ (conj eq_refl eq_refl);
     py_repr := fun _ => "<object>" |}.

Definition refused : exn := Exn "ConnectionError" "connection refused".
Definition blocked : exn := Exn "Forbidden" "Forbidden: bot was blocked by the user".

(** The remote host is down; Telegram works. *)
Definition host_down : env := env_of (Raise refused) None None.

(** The remote host accepts the upload. *)
Definition accepted_body : json :=
  JObj [("success", JBool true);
        ("file_url", JStr "http://shareimage.42web.io/uploads/a.jpg")].
Definition host_up : env :=
  env_of (Ok (Response true (Ok accepted_body))) None None.

(** Telegram refuses every call. *)
Definition telegram_down : env := env_of (Raise refused) (Some blocked) (Some blocked).

(** A table with one session, owned by user 7. *)
Definition one_session : world :=
  World [SessionStore.Row 7 "Kioqlc3rJ2E" "http://shareimage.42web.io/uploads/b.jpg"] [].

Definition snapshot_fields (sid image : string) : list (string * json) :=
  [("session", JStr sid); ("image", JStr image)].

(** The str made of U+D800 alone, with the surrogate passed through. *)
Definition lone_surrogate : string :=
  String "237"%char (String "160"%char (String "128"%char "")).

(** Snapshots for the session of [one_session]: the PNG signature, and
    [hello] followed by a line feed. *)
Definition png_snapshot : option json :=
  Some (JObj (snapshot_fields "Kioqlc3rJ2E" "data:image/png;base64,iVBORw0KGgo=")).

Definition newline_payload : string := "aGVsbG8=" +:+ nl.

Definition newline_snapshot : option json :=
  Some (JObj (snapshot_fields "Kioqlc3rJ2E"
                ("data:image/png;base64," +:+ newline_payload))).

Definition hello : list byte := [Byte.x68; Byte.x65; Byte.x6c; Byte.x6c; Byte.x6f].

(** The eight bytes of the PNG signature. *)
Definition png_signature : list byte :=
  [Byte.x89; Byte.x50; Byte.x4e; Byte.x47; Byte.x0d; Byte.x0a; Byte.x1a; Byte.x0a].

(** A photo message of user 42. *)
Definition photo_update : update := Update (Some ["small"; "large"]) (Some 42).

End Samples.

(** ** Start-up: the bot token and the host URL (lines 24-76)

    The code of this part slices, strips and splits strs by character;
    here a str is the list of its code points. *)
Module Startup.

Definition ustr : Type := list N.

(** An ASCII literal. *)
Definition u (s : string) : ustr := map N_of_ascii (list_ascii_of_string s).

Definition is_chr (c : ascii) : N -> bool := N.eqb (N_of_ascii c).

(** [c.isspace()] *)
Definition isspace (c : N) : bool :=
  ((9 <=? c) && (c <=? 13) || (28 <=? c) && (c <=? 32) || (c =? 133) || (c =? 160) ||
   (c =? 5760) || (8192 <=? c) && (c <=? 8202) || (c =? 8232) || (c =? 8233) ||
   (c =? 8239) || (c =? 8287) || (c =? 12288))%N.

(** [s.lstrip(...)], [s.rstrip(...)] and [s.strip(...)] for a set of
    characters. *)
Fixpoint lstrip (p : N -> bool) (s : ustr) : ustr :=
  match s with
  | c :: s' => if p c then lstrip p s' else s
  | [] => []
  end.

Definition rstrip (p : N -> bool) (s : ustr) : ustr := rev (lstrip p (rev s)).

Definition strip (p : N -> bool) (s : ustr) : ustr := rstrip p (lstrip p s).

(** [s.startswith(pre)] *)
Fixpoint startswith (pre s : ustr) : bool :=
  match pre with
  | [] => true
  | c :: pre' =>
      match s with
      | c' :: s' => N.eqb c c' && startswith pre' s'
      | [] => false
      end
  end.

(** [s.split(c, 1)]: the text before the first [c], and the text after it
    when there is one. *)
Fixpoint split_once (c : ascii) (s : ustr) : ustr * option ustr :=
  match s with
  | [] => ([], None)
  | x :: s' =>
      if is_chr c x then ([], Some s')
      else let '(before, rest) := split_once c s' in (x :: before, rest)
  end.

(** [bool(s)] for a str that may be [None]. *)
Definition nonempty (s : option ustr) : bool :=
  match s with
  | Some (_ :: _) => true
  | _ => false
  end.

(** [_mask_token] (lines 43-48). *)
Definition _mask_token (tkn : option ustr) : ustr :=
  match tkn with
  | Some ((_ :: _) as t) =>
      if (length t <=? 10)%nat
      then (take 4 t ++ u "..." ++ drop (length t - 2) t)%list
      else (take 4 t ++ u "..." ++ drop (length t - 4) t)%list
  | _ => u "<missing>"
  end.

(** [os.environ['BOT_TOKEN'] = val] (line 36): [None] when the assignment
    succeeds, the exception it raises otherwise.  A value that holds U+0000
    is refused on every platform; what else is refused (a value the
    file-system encoding cannot encode) depends on the platform. *)
Record environ : Type := Environ {
  setenv : ustr -> option exn;
  setenv_nul :
    forall val, existsb (N.eqb 0) val = true ->
                setenv val = Some (Exn "ValueError" "embedded null byte")
}.

(** An environment that refuses nothing else. *)
Definition accepting : environ :=
  {| setenv := fun val =>
       if existsb (N.eqb 0) val
       then Some (Exn "ValueError" "embedded null byte") else None;
     setenv_nul := ltac:(intros val H; cbv beta; rewrite H; reflexivity) |}.

(** What one line of the [.env] file does to the loop of lines 28-38. *)
Inductive line_step : Type :=
| Found (val : ustr)      (* BOT_TOKEN is set and the loop is left *)
| Next                     (* the loop goes on *)
| Abort (e : exn).         (* the statement raises *)

Definition read_line (os : environ) (line : ustr) : line_step :=
  let line := strip isspace line in
  if negb (nonempty (Some line)) || startswith (u "#") line then Next
  else if startswith (u "BOT_TOKEN=") line then
    match split_once "="%char line with
    | (_, Some val) =>
        let val := strip (is_chr "'"%char) (strip (is_chr "034"%char) (strip isspace val)) in
        if nonempty (Some val) then
          match setenv os val with
          | None => Found val
          | Some e => Abort e
          end
        else Next
    | (_, None) =>
        Abort (Exn "ValueError" "not enough values to unpack (expected 2, got 1)")
    end
  else Next.

(** The loop over the lines that the iteration of the file yields.  The file
    is decoded block by block: the iteration raises UnicodeDecodeError when
    it comes to a block that holds an undecodable byte, before it yields any
    line of that block.  [lines] are the lines yielded before the iteration
    ends or raises; in both cases, and when a statement of the body raises,
    the loop is left without a token ([except Exception: pass]). *)
Fixpoint read_dotenv (os : environ) (lines : list ustr) : option ustr :=
  match lines with
  | [] => None
  | line :: rest =>
      match read_line os line with
      | Found val => Some val
      | Next => read_dotenv os rest
      | Abort _ => None
      end
  end.

(** Lines 24-40 and 75-76: [getenv] is [os.getenv("BOT_TOKEN")]; [dotenv] is
    the lines the iteration of the [.env] file yields, [None] when the file
    does not exist or cannot be opened. *)
Definition bot_token (os : environ) (getenv : option ustr)
           (dotenv : option (list ustr)) : result ustr :=
  let BOT_TOKEN :=
    if negb (nonempty getenv) then
      match dotenv with
      | Some lines =>
          match read_dotenv os lines with
          | Some val => Some val
          | None => getenv
          end
      | None => getenv
      end
    else getenv in
  match BOT_TOKEN with
  | Some ((_ :: _) as t) => Ok t
  | _ => Raise (Exn "ValueError"
                    "❌ BOT_TOKEN not found. Please add it to your .env file!")
  end.

(** The fields of [urlparse(HOST_URL)] that lines 63-66 read. *)
Record parse_result : Type := ParseResult {
  scheme : ustr;
  netloc : ustr;
  path : ustr
}.

(** [HOST_URL_CLEAN] (lines 63-72). *)
Definition host_url_clean (HOST_URL : ustr) (parsed : parse_result) : ustr :=
  let scheme' := if nonempty (Some (scheme parsed)) then scheme parsed else u "http" in
  let netloc' := netloc parsed in
  let path' :=
    if nonempty (Some (path parsed)) then rstrip (is_chr "/"%char) (path parsed) else [] in
  let '(netloc', path') :=
    if negb (nonempty (Some netloc')) then
      let parts := split_once "/"%char HOST_URL in
      (fst parts,
       match snd parts with
       | Some rest => (u "/" ++ rstrip (is_chr "/"%char) rest)%list
       | None => []
       end)
    else (netloc', path') in
  (scheme' ++ u "://" ++ netloc' ++ path')%list.


End Startup.

(** The requests sent to the remote host, and the replies to the chat. *)
Definition posts (evs : list event) : list event :=
  List.filter (fun e => match e with Post _ _ _ => true | _ => false end) evs.

Definition replies (evs : list event) : list event :=
  List.filter (fun e => match e with ReplyText _ _ => true | _ => false end) evs.

(** The characters of the standard base64 alphabet. *)
Definition in_alphabet (c : ascii) : bool :=
  match Base64.a2b c with
  | Some _ => true
  | None => false
  end.

(** * Properties *)

(** ** The session table *)
Module SessionStoreFacts.
Import SessionStore.

Lemma has_id_true sid r : has_id sid r = true <-> session_id r = sid.
Proof. unfold has_id. apply String.eqb_eq. Qed.

Lemma has_id_false sid r : has_id sid r = false <-> session_id r <> sid.
Proof. unfold has_id. apply String.eqb_neq. Qed.

Lemma find_app_none (f : row -> bool) (t1 t2 : table) :
  List.find f t1 = None -> List.find f (t1 ++ t2) = List.find f t2.
Proof.
  induction t1 as [|r t1 IH]; simpl; [done|].
  destruct (f r); [done | exact IH].
Qed.

Lemma find_filter_out (sid : string) (t : table) :
  List.find (has_id sid) (List.filter (fun r => negb (has_id sid r)) t) = None.
Proof.
  induction t as [|r t IH]; simpl; [done|].
  destruct (has_id sid r) eqn:Hr; simpl; [exact IH|].
  by rewrite Hr.
Qed.

Lemma find_filter_other (sid sid' : string) (t : table) :
  sid <> sid' ->
  List.find (has_id sid') (List.filter (fun r => negb (has_id sid r)) t)
  = List.find (has_id sid') t.
Proof.
  intros Hne. induction t as [|r t IH]; simpl; [done|].
  destruct (has_id sid r) eqn:Hr; simpl.
  - apply has_id_true in Hr.
    assert (has_id sid' r = false) as -> by (apply has_id_false; congruence).
    exact IH.
  - destruct (has_id sid' r); [done | exact IH].
Qed.

(** A row just written is the one a lookup of its id finds. *)
Lemma select_insert_same (r : row) (t : table) :
  select_row (session_id r) (insert_or_replace r t) = Some r.
Proof.
  unfold select_row, insert_or_replace.
  rewrite find_app_none by apply find_filter_out.
  simpl. assert (has_id (session_id r) r = true) as -> by by apply has_id_true.
  done.
Qed.

(** Lookups of the other ids are not affected by a write. *)
Lemma select_insert_other (r : row) (sid : string) (t : table) :
  session_id r <> sid ->
  select_row sid (insert_or_replace r t) = select_row sid t.
Proof.
  intros Hne. unfold select_row, insert_or_replace.
  destruct (List.find (has_id sid) t) as [r'|] eqn:Hf.
  - rewrite <- (find_filter_other (session_id r) sid t Hne) in Hf.
    revert Hf. generalize (List.filter (fun r' => negb (has_id (session_id r) r')) t).
    intros l. induction l as [|x l IH]; simpl; [done|].
    destruct (has_id sid x); [done | exact IH].
  - rewrite find_app_none by by rewrite find_filter_other.
    simpl. by assert (has_id sid r = false) as -> by by apply has_id_false.
Qed.

Lemma filter_filter_out (sid : string) (t : table) :
  List.filter (has_id sid) (List.filter (fun r => negb (has_id sid r)) t) = [].
Proof.
  induction t as [|r t IH]; simpl; [done|].
  destruct (has_id sid r) eqn:Hr; simpl; [exact IH|]. by rewrite Hr.
Qed.

(** After a write exactly one row holds the written id. *)
Lemma count_insert_same (r : row) (t : table) :
  count_id (session_id r) (insert_or_replace r t) = 1%nat.
Proof.
  unfold count_id, insert_or_replace.
  rewrite List.filter_app, filter_filter_out. simpl.
  by assert (has_id (session_id r) r = true) as -> by by apply has_id_true.
Qed.

Lemma filter_out_absent (sid : string) (t : table) :
  List.filter (has_id sid) t = [] ->
  List.filter (fun r => negb (has_id sid r)) t = t.
Proof.
  induction t as [|r t IH]; simpl; [done|].
  destruct (has_id sid r); simpl; [done|]. intros H. by rewrite IH.
Qed.

Lemma filter_out_idem (sid : string) (t : table) :
  List.filter (fun r => negb (has_id sid r))
              (List.filter (fun r => negb (has_id sid r)) t)
  = List.filter (fun r => negb (has_id sid r)) t.
Proof. apply filter_out_absent, filter_filter_out. Qed.

(** Writing an id that is already there replaces its row: the table keeps
    its size. *)
Lemma length_insert_twice (r r' : row) (t : table) :
  session_id r' = session_id r ->
  length (insert_or_replace r' (insert_or_replace r t))
  = length (insert_or_replace r t).
Proof.
  intros Hid. unfold insert_or_replace. rewrite Hid.
  rewrite List.filter_app, filter_out_idem. simpl.
  assert (has_id (session_id r) r = true) as -> by by apply has_id_true.
  simpl. by rewrite app_nil_r, !length_app.
Qed.

Lemma ids_filter_out (sid : string) (t : table) :
  sid ∉ map session_id (List.filter (fun r => negb (has_id sid r)) t).
Proof.
  induction t as [|r t IH]; simpl; [apply not_elem_of_nil|].
  destruct (has_id sid r) eqn:Hr; simpl; [exact IH|].
  apply has_id_false in Hr. rewrite not_elem_of_cons. split; [congruence | exact IH].
Qed.

Lemma unique_filter (f : row -> bool) (t : table) :
  unique_ids t -> unique_ids (List.filter f t).
Proof.
  unfold unique_ids. induction t as [|r t IH]; simpl; [done|].
  rewrite NoDup_cons. intros [Hr Ht].
  destruct (f r); simpl; [|by apply IH].
  apply NoDup_cons. split; [|by apply IH].
  intros Hin. apply Hr. clear -Hin.
  induction t as [|x t IH]; simpl in *; [done|].
  destruct (f x); simpl in *; [|by apply elem_of_cons; right; apply IH].
  apply elem_of_cons in Hin as [->|Hin]; [by left | by right; apply IH].
Qed.

(** A write preserves the primary-key constraint. *)
Lemma unique_insert (r : row) (t : table) :
  unique_ids t -> unique_ids (insert_or_replace r t).
Proof.
  intros Ht. unfold unique_ids, insert_or_replace.
  rewrite map_app. apply NoDup_app. split_and!.
  - by apply unique_filter.
  - intros sid Hin Hin'. simpl in Hin'.
    apply list_elem_of_singleton in Hin' as ->.
    by apply ids_filter_out in Hin.
  - simpl. apply NoDup_singleton.
Qed.

Lemma unique_puts (ops : list (string * Z * string)) (t : table) :
  unique_ids t -> unique_ids (puts ops t).
Proof.
  revert t. unfold puts. induction ops as [|op ops IH]; intros t Ht; simpl; [done|].
  apply IH. by apply unique_insert.
Qed.

(** C7.  A [put] followed by a [get] of the same id returns what was put;
    a second [put] under that id replaces the row, so that the [get]
    returns the new reference, exactly one row holds the id and the table
    has not grown; and no run of [put]s from the empty table leaves two rows
    with the same session id. *)
Theorem put_get_overwrite (sid : string) (u u' : Z) (ref ref' : string) (t : table) :
  get sid (put sid u ref t) = Some (u, ref) /\
  get sid (put sid u' ref' (put sid u ref t)) = Some (u', ref') /\
  count_id sid (put sid u' ref' (put sid u ref t)) = 1%nat /\
  length (put sid u' ref' (put sid u ref t)) = length (put sid u ref t) /\
  forall ops, unique_ids (puts ops []).
Proof.
  unfold get, put. split_and!.
  - by rewrite (select_insert_same (Row u sid ref)).
  - by rewrite (select_insert_same (Row u' sid ref')).
  - apply (count_insert_same (Row u' sid ref')).
  - by apply length_insert_twice.
  - intros ops. apply unique_puts. apply NoDup_nil_2.
Qed.

End SessionStoreFacts.

(** ** The regular expression: the matcher agrees with the hand-compiled
    pattern *)
Module ReFacts.
Import Re.

Section Unfold.
Context (k : list rx) (pos : nat) (st : list nat) (caps : list (nat * nat)).

Lemma go_chr c c' s :
  go (Chr c :: k) pos (c' :: s) st caps
  = if Ascii.eqb c c' then go k (S pos) s st caps else None.
Proof. reflexivity. Qed.

Lemma go_cls p s :
  go (Cls p :: k) pos s st caps
  = match s with
    | c :: s' => if p c then go k (S pos) s' st caps else None
    | [] => None
    end.
Proof. reflexivity. Qed.

Lemma go_star_nil p : go (Star p :: k) pos [] st caps = go k pos [] st caps.
Proof. reflexivity. Qed.

Lemma go_star_cons p c s :
  go (Star p :: k) pos (c :: s) st caps
  = if p c
    then match go (Star p :: k) (S pos) s st caps with
         | Some m => Some m
         | None => go k pos (c :: s) st caps
         end
    else go k pos (c :: s) st caps.
Proof. reflexivity. Qed.

Lemma go_eos s :
  go (Eos :: k) pos s st caps = if at_end s then go k pos s st caps else None.
Proof. destruct s as [|c [|c' s]]; reflexivity. Qed.

Lemma go_open s : go (GOpen :: k) pos s st caps = go k pos s (pos :: st) caps.
Proof. reflexivity. Qed.

Lemma go_close b s :
  go (GClose :: k) pos s (b :: st) caps = go k pos s st ((b, pos) :: caps).
Proof. reflexivity. Qed.
End Unfold.

(** A literal consumes itself or fails. *)
Lemma go_lit pre k pos s st caps :
  go (map Chr pre ++ k) pos s st caps
  = match strip pre s with
    | Some s' => go k (pos + length pre) s' st caps
    | None => None
    end.
Proof.
  revert pos s. induction pre as [|c pre IH]; intros pos s; simpl strip.
  - simpl. by rewrite Nat.add_0_r.
  - destruct s as [|c' s]; [reflexivity|].
    simpl map. simpl app. rewrite go_chr.
    destruct (Ascii.eqb c c'); [|reflexivity].
    rewrite IH. simpl length. by rewrite Nat.add_succ_r.
Qed.

(** A greedy star takes the longest run when what follows the star cannot
    start with a character of the class. *)
Lemma go_star_greedy p k pos s st caps :
  (forall c s' pos', p c = true -> go k pos' (c :: s') st caps = None) ->
  go (Star p :: k) pos s st caps
  = go k (pos + length (run p s)) (after p s) st caps.
Proof.
  intros Hk. revert pos. induction s as [|c s IH]; intros pos.
  - rewrite go_star_nil. simpl. by rewrite Nat.add_0_r.
  - rewrite go_star_cons. simpl run. simpl after.
    destruct (p c) eqn:Hc.
    + rewrite IH, (Hk c s pos Hc). simpl length. rewrite Nat.add_succ_r. simpl.
      by destruct (go k _ _ st caps).
    + simpl. by rewrite Nat.add_0_r.
Qed.

Lemma strip_Some pre s s' : strip pre s = Some s' <-> s = (pre ++ s')%list.
Proof.
  revert s. induction pre as [|c pre IH]; intros s; simpl.
  - split; congruence.
  - destruct s as [|c' s]; [split; discriminate|].
    destruct (Ascii.eqb_spec c c') as [->|Hne].
    + rewrite IH. split; congruence.
    + split; [discriminate | congruence].
Qed.

Lemma run_after p s : s = (run p s ++ after p s)%list.
Proof.
  induction s as [|c s IH]; simpl; [done|].
  destruct (p c); simpl; congruence.
Qed.


Lemma slice_mid (a b c : list ascii) (i j : nat) :
  i = length a -> j = (length a + length b)%nat ->
  slice (a ++ b ++ c) (i, j) = string_of_list_ascii b.
Proof.
  intros -> ->. unfold slice. simpl fst. simpl snd.
  rewrite drop_app_length. f_equal.
  apply take_app_length'. lia.
Qed.

Theorem rmatch_data_uri (s : string) :
  rmatch data_uri_re s = match_data_uri s.
Proof.
  unfold rmatch, match_data_uri.
  set (l := list_ascii_of_string s).
  set (ns := not_chr ";"%char).
  change data_uri_re with
    (map Chr (list_ascii_of_string "data:") ++
     GOpen :: map Chr (list_ascii_of_string "image/") ++
     Cls ns :: Star ns :: GClose :: map Chr (list_ascii_of_string ";base64,") ++
     [GOpen; Star dot; GClose; Eos])%list.
  rewrite go_lit.
  destruct (strip _ l) as [l1|] eqn:H1; [|reflexivity].
  rewrite go_open, go_lit.
  destruct (strip _ l1) as [l2|] eqn:H2; [|reflexivity].
  rewrite go_cls.
  destruct l2 as [|c l2]; [reflexivity|].
  simpl run. simpl after.
  destruct (ns c) eqn:Hc; [|reflexivity].
  rewrite go_star_greedy; cycle 1.
  { intros c' s' pos' Hc'. rewrite go_close, go_lit.
    change (list_ascii_of_string ";base64,")
      with (";"%char :: list_ascii_of_string "base64,").
    cbn [strip]. unfold ns, not_chr in Hc'. rewrite Ascii.eqb_sym.
    by destruct (Ascii.eqb c' ";"). }
  rewrite go_close, go_lit.
  destruct (strip _ (after ns l2)) as [l3|] eqn:H3; [|reflexivity].
  rewrite go_open, go_star_greedy; cycle 1.
  { intros c' s' pos' Hc'. rewrite go_close, go_eos.
    unfold dot, not_chr in Hc'. cbn [at_end].
    destruct s'; [|done]. by destruct (Ascii.eqb c' "010"). }
  rewrite go_close, go_eos.
  destruct (at_end (after dot l3)); [|reflexivity].
  simpl go. simpl option_map. simpl map. 
  apply strip_Some in H1, H2, H3.
  assert (Hl : l = (list_ascii_of_string "data:" ++
                    (list_ascii_of_string "image/" ++ c :: run ns l2) ++
                    list_ascii_of_string ";base64," ++ l3)%list).
  { rewrite H1, H2. rewrite (run_after ns l2) at 1. rewrite H3.
    by rewrite <- !app_assoc. }
  f_equal. f_equal; [|f_equal].
  - rewrite Hl. apply slice_mid; [reflexivity|].
    rewrite length_app. simpl. lia.
  - rewrite Hl, (run_after dot l3) at 1.
    rewrite !app_assoc. rewrite <- (app_assoc _ (run dot l3)).
    apply slice_mid.
    + rewrite !length_app. simpl. lia.
    + rewrite !length_app. simpl. lia.
Qed.
End ReFacts.

(** ** The data-URI pattern on the subjects the handler meets *)
Module DataUriFacts.
Import Re ReFacts.

Lemma chars_app (a b : string) :
  list_ascii_of_string (a +:+ b)
  = (list_ascii_of_string a ++ list_ascii_of_string b)%list.
Proof. induction a as [|c a IH]; simpl; [done | by rewrite IH]. Qed.

Lemma run_stop (c : ascii) (a b : list ascii) :
  existsb (Ascii.eqb c) a = false ->
  run (not_chr c) (a ++ c :: b) = a /\ after (not_chr c) (a ++ c :: b) = c :: b.
Proof.
  induction a as [|x a IH]; simpl.
  - intros _. unfold not_chr. by rewrite Ascii.eqb_refl.
  - intros H. apply orb_false_iff in H as [Hx Ha].
    unfold not_chr at 1 3. rewrite Ascii.eqb_sym, Hx. simpl.
    destruct (IH Ha) as [-> ->]. done.
Qed.

Lemma run_all (c : ascii) (a : list ascii) :
  existsb (Ascii.eqb c) a = false ->
  run (not_chr c) a = a /\ after (not_chr c) a = [].
Proof.
  induction a as [|x a IH]; simpl; [done|].
  intros H. apply orb_false_iff in H as [Hx Ha].
  unfold not_chr at 1 3. rewrite Ascii.eqb_sym, Hx. simpl.
  destruct (IH Ha) as [-> ->]. done.
Qed.

(** Subjects of the shape the pattern describes match, and the groups are
    the mime type and the payload. *)
Lemma match_shape (sub payload tail : string) :
  sub <> "" ->
  has_chr ";" sub = false ->
  has_chr "010" payload = false ->
  tail = "" \/ tail = nl ->
  match_data_uri ("data:image/" +:+ sub +:+ ";base64," +:+ payload +:+ tail)
  = Some ["image/" +:+ sub; payload].
Proof.
  intros Hsub Hsemi Hnl Htail. unfold match_data_uri, has_chr in *.
  rewrite !chars_app.
  change (list_ascii_of_string "data:image/")
    with (list_ascii_of_string "data:" ++ list_ascii_of_string "image/")%list.
  rewrite <- !app_assoc.
  assert (Hs : forall pre x, strip pre (pre ++ x) = Some x)
    by (intros; by apply strip_Some).
  rewrite !Hs.
  set (Q := (list_ascii_of_string payload ++ list_ascii_of_string tail)%list).
  change (list_ascii_of_string ";base64," ++ Q)%list
    with (";"%char :: (list_ascii_of_string "base64," ++ Q)%list).
  destruct (run_stop ";" (list_ascii_of_string sub)
              (list_ascii_of_string "base64," ++ Q)%list Hsemi) as [-> ->].
  destruct (list_ascii_of_string sub) as [|c0 subl] eqn:Hl.
  { exfalso. apply Hsub. rewrite <- (string_of_list_ascii_of_string sub). by rewrite Hl. }
  change (";"%char :: (list_ascii_of_string "base64," ++ Q)%list)
    with (list_ascii_of_string ";base64," ++ Q)%list.
  rewrite Hs. unfold Q.
  assert (Hrun : run dot (list_ascii_of_string payload ++ list_ascii_of_string tail)
                 = list_ascii_of_string payload /\
                 at_end (after dot (list_ascii_of_string payload ++
                                    list_ascii_of_string tail)) = true).
  { unfold dot. destruct Htail as [-> | ->].
    - simpl list_ascii_of_string. rewrite app_nil_r. by destruct (run_all _ _ Hnl) as [-> ->].
    - change (list_ascii_of_string nl) with ["010"%char].
      by destruct (run_stop _ _ [] Hnl) as [-> ->]. }
  destruct Hrun as [-> ->].
  rewrite <- Hl, <- chars_app, !string_of_list_ascii_of_string. done.
Qed.

Lemma append_empty_r (s : string) : s +:+ "" = s.
Proof.
  induction s as [|c s IH]; [done|].
  change (String c s +:+ "") with (String c (s +:+ "")). by rewrite IH.
Qed.

Lemma match_png (payload : string) :
  has_chr "010" payload = false ->
  match_data_uri ("data:image/png;base64," +:+ payload)
  = Some ["image/png"; payload].
Proof.
  intros Hnl.
  change ("data:image/png;base64," +:+ payload)
    with ("data:image/" +:+ "png" +:+ ";base64," +:+ payload).
  rewrite <- (append_empty_r payload) at 1.
  rewrite match_shape; [done | discriminate | reflexivity | exact Hnl | by left].
Qed.

Lemma after_stop (c : ascii) (a b : list ascii) :
  after (not_chr c) (a ++ c :: b) = (after (not_chr c) a ++ c :: b)%list.
Proof.
  induction a as [|x a IH]; simpl.
  - unfold not_chr. by rewrite Ascii.eqb_refl.
  - destruct (not_chr c x); [exact IH | done].
Qed.

Lemma at_end_inner_newline (x : list ascii) (c : ascii) (y : list ascii) :
  at_end (after dot (x ++ "010"%char :: c :: y)) = false.
Proof.
  induction x as [|a x IH]; simpl; [done|].
  destruct (dot a); [exact IH|]. simpl. by destruct x.
Qed.

Lemma strip_through (pre m : list ascii) (c : ascii) (q l2 : list ascii) :
  c ∉ pre ->
  strip pre (m ++ c :: q) = Some l2 ->
  exists u, l2 = (u ++ c :: q)%list.
Proof.
  revert m. induction pre as [|a pre IH]; intros m Hc; simpl.
  - intros [= <-]. by exists m.
  - apply not_elem_of_cons in Hc as [Hne Hc].
    destruct m as [|b m]; simpl.
    + destruct (Ascii.eqb_spec a c); [congruence | discriminate].
    + destruct (Ascii.eqb a b); [by apply IH | discriminate].
Qed.

(** A line feed inside the payload, anywhere but at its very end, makes the
    match fail. *)
Lemma no_match_inner_newline (mime p1 p2 : string) :
  p2 <> "" ->
  match_data_uri ("data:" +:+ mime +:+ ";base64," +:+ p1 +:+ nl +:+ p2) = None.
Proof.
  intros Hp2. unfold match_data_uri. rewrite !chars_app.
  assert (Hs : forall pre x, strip pre (pre ++ x) = Some x)
    by (intros; by apply strip_Some).
  rewrite Hs.
  destruct (list_ascii_of_string p2) as [|c2 y] eqn:Hy.
  { exfalso. apply Hp2. rewrite <- (string_of_list_ascii_of_string p2). by rewrite Hy. }
  set (P := (list_ascii_of_string p1 ++ list_ascii_of_string nl ++ c2 :: y)%list).
  change (list_ascii_of_string ";base64,")
    with (";"%char :: list_ascii_of_string "base64,") at 1.
  simpl app at 2.
  destruct (strip _ _) as [l2|] eqn:H2; [|done].
  apply strip_through in H2 as [u ->].
  2:{ vm_compute. intros H. repeat (inversion H as [|? ? ? H']; clear H; rename H' into H; subst). }
  rewrite after_stop.
  destruct (run _ _); [done|].
  change (";"%char :: (list_ascii_of_string "base64," ++ P)%list)
    with (list_ascii_of_string ";base64," ++ P)%list.
  destruct (strip _ _) as [l3|] eqn:H3; [|done].
  apply strip_Some in H3.
  assert (l3 = drop 8 (after (not_chr ";") u ++ list_ascii_of_string ";base64,") ++ P)%list
    as ->.
  { apply (f_equal (drop 8)) in H3.
    change (after (not_chr ";") u ++ _)%list
      with (after (not_chr ";") u ++ list_ascii_of_string ";base64," ++ P)%list in H3.
    rewrite app_assoc in H3.
    rewrite drop_app_le in H3 by (rewrite length_app; simpl; lia).
    rewrite H3. reflexivity. }
  unfold P. change (list_ascii_of_string nl) with ["010"%char].
  change (["010"%char] ++ c2 :: y)%list with ("010"%char :: c2 :: y).
  by rewrite app_assoc, at_end_inner_newline.
Qed.

Lemma strip_not_prefix (pre : list ascii) (m : string) (c : ascii) (q : list ascii) :
  c ∉ pre ->
  String.prefix (string_of_list_ascii pre) m = false ->
  strip pre (list_ascii_of_string m ++ c :: q) = None.
Proof.
  revert m. induction pre as [|a pre IH]; intros m Hc; simpl.
  - by destruct m.
  - apply not_elem_of_cons in Hc as [Hne Hc].
    destruct m as [|b m]; simpl.
    + intros _. destruct (Ascii.eqb_spec a c); [congruence | done].
    + destruct (ascii_dec a b) as [->|Hab].
      * rewrite Ascii.eqb_refl. by apply IH.
      * intros _. by destruct (Ascii.eqb_spec a b).
Qed.

(** A mime type that does not begin with [image/] makes the match fail. *)
Lemma no_match_other_mime (mime payload : string) :
  String.prefix "image/" mime = false ->
  match_data_uri ("data:" +:+ mime +:+ ";base64," +:+ payload) = None.
Proof.
  intros Hm. unfold match_data_uri. rewrite !chars_app.
  assert (Hs : forall pre x, strip pre (pre ++ x) = Some x)
    by (intros; by apply strip_Some).
  rewrite Hs.
  change (list_ascii_of_string ";base64,")
    with (";"%char :: list_ascii_of_string "base64,") at 1.
  simpl app at 2.
  rewrite strip_not_prefix; [done | | done].
  vm_compute. intros H. repeat (inversion H as [|? ? ? H']; clear H; rename H' into H; subst).
Qed.

End DataUriFacts.

(** ** The snapshot relay *)
Module RelayFacts.
Import SessionStore ReFacts DataUriFacts.

Lemma truthy_str (s : string) : s <> "" -> truthy (JStr s) = true.
Proof. intros H. simpl. by destruct (String.eqb_spec s ""). Qed.

Lemma assoc_nonempty k kvs v : assoc k kvs = Some v -> truthy (JObj kvs) = true.
Proof. by destruct kvs. Qed.

(** The run of [upload_photo] on an object whose two fields are truthy:
    the call of [bot.send_photo] is the last step, and nothing awaits the
    coroutine it returns. *)
Lemma upload_photo_fields (E : env) kvs (session image : json) (w : world) :
  assoc "session" kvs = Some session -> truthy session = true ->
  assoc "image" kvs = Some image -> truthy image = true ->
  upload_photo E (Some (JObj kvs)) w =
  let w1 := log (DbSelect session) w in
  match sqlite_text E session with
  | Raise e => (Raise e, w1)
  | Ok sid =>
      match select_user_id sid (db w) with
      | None => (Ok (error_response "invalid session" 404), w1)
      | Some uid =>
          match re_match image with
          | Raise e => (Raise e, w1)
          | Ok None => (Ok (error_response "invalid image data" 400), w1)
          | Ok (Some groups) =>
              match Base64.b64decode (group 2 groups) with
              | Raise e => (Ok (error_detail "base64 decode failed" e 400), w1)
              | Ok image_bytes =>
                  (Ok (jsonify [("ok", JBool true)] 200),
                   log (SendPhoto uid image_bytes snapshot_name snapshot_caption) w1)
              end
          end
      end
  end.
Proof.
  intros Hs Hts Hi Hti. unfold upload_photo.
  cbn [default from_option id]. rewrite (assoc_nonempty _ _ _ Hs). cbn [negb].
  unfold mbind, M_bind, lift, py_get. rewrite Hs, Hi. cbn [default from_option id].
  rewrite Hts, Hti. cbn [negb orb].
  unfold db_select_user_id.
  destruct (sqlite_text E session) as [sid|e]; [|reflexivity].
  destruct (select_user_id sid (db w)) as [uid|]; [|reflexivity].
  destruct (re_match image) as [[g|]|e]; [|reflexivity..].
  by destruct (Base64.b64decode (group 2 g)).
Qed.

(** The same run when the two fields are non-empty strs that encode. *)
Lemma upload_photo_typed (E : env) kvs (sid img : string) (w : world) :
  assoc "session" kvs = Some (JStr sid) -> sid <> "" ->
  assoc "image" kvs = Some (JStr img) -> img <> "" ->
  upload_photo E (Some (JObj kvs)) w =
  let w1 := log (DbSelect (JStr sid)) w in
  match select_user_id sid (db w) with
  | None => (Ok (error_response "invalid session" 404), w1)
  | Some uid =>
      match match_data_uri img with
      | None => (Ok (error_response "invalid image data" 400), w1)
      | Some groups =>
          match Base64.b64decode (group 2 groups) with
          | Raise e => (Ok (error_detail "base64 decode failed" e 400), w1)
          | Ok image_bytes =>
              (Ok (jsonify [("ok", JBool true)] 200),
               log (SendPhoto uid image_bytes snapshot_name snapshot_caption) w1)
          end
      end
  end.
Proof.
  intros Hs Hsid Hi Himg.
  rewrite (upload_photo_fields E kvs _ _ w Hs (truthy_str sid Hsid) Hi
             (truthy_str img Himg)).
  cbv zeta. rewrite (sqlite_text_str E). unfold re_match. by rewrite rmatch_data_uri.
Qed.

Lemma new_events_log1 e w : new_events w (log e w) = [e].
Proof. unfold new_events, log. simpl. apply drop_app_length. Qed.

Lemma new_events_log2 e1 e2 w : new_events w (log e2 (log e1 w)) = [e1; e2].
Proof.
  unfold new_events, log. simpl. rewrite <- app_assoc. apply drop_app_length.
Qed.

Lemma new_events_refl w : new_events w w = [].
Proof. unfold new_events. apply drop_all. Qed.

Ltac unfold_relay :=
  unfold upload_photo, bot_send_photo, mbind, M_bind, mret, M_ret, lift, catch,
    call, db_select_user_id.

Lemma upload_photo_frame (E : env) (req : option json) (w : world) :
  let w' := snd (upload_photo E req w) in
  db w' = db w /\
  rows_written (new_events w w') = [] /\
  (length (lookups (new_events w w')) <= 1)%nat.
Proof.
  unfold_relay.
  repeat case_match; simplify_eq; cbn [snd];
    rewrite ?new_events_refl, ?new_events_log1, ?new_events_log2;
    cbn; auto.
Qed.

(** C5, as stated, fails.  The session id [nobody] is in no row, and the
    request holds no image: the answer is 400 "missing fields", and the table
    has not been looked up.  A session str with a lone surrogate is in no row
    either: the lookup raises when it binds it. *)
Lemma absent_session_is_not_always_404 :
  select_user_id "nobody" (db Samples.one_session) = None /\
  upload_photo Samples.host_down (Some (JObj [("session", JStr "nobody")]))
    Samples.one_session
  = (Ok (error_response "missing fields" 400), Samples.one_session) /\
  (exists e,
      fst (upload_photo Samples.host_down
             (Some (JObj [("session", JSurrStr Samples.lone_surrogate);
                          ("image", JStr "data:image/png;base64,iVBORw0KGgo=")]))
             Samples.one_session) = Raise e /\
      exn_class e = "UnicodeEncodeError") /\
  ~ (forall (E : env) kvs (sid : string) (w : world),
        assoc "session" kvs = Some (JStr sid) ->
        select_user_id sid (db w) = None ->
        fst (upload_photo E (Some (JObj kvs)) w)
        = Ok (error_response "invalid session" 404)).
Proof.
  split_and!; [reflexivity | reflexivity | by eexists |].
  intros H.
  specialize (H Samples.host_down [("session", JStr "nobody")] "nobody"
                Samples.one_session eq_refl eq_refl).
  vm_compute in H. discriminate H.
Qed.

(** C5, amended.  A request whose [session] and [image] fields are truthy,
    and whose session binds as the parameter of the lookup to an id that is
    in no row, is answered 404 "invalid session"; the lookup is the only call
    made, so [bot.send_photo] is not called.  A session that is a str which
    encodes binds as itself. *)
Theorem absent_session_not_found (E : env) kvs (session image : json)
        (sid : string) (w : world) :
  assoc "session" kvs = Some session -> truthy session = true ->
  assoc "image" kvs = Some image -> truthy image = true ->
  sqlite_text E session = Ok sid ->
  select_user_id sid (db w) = None ->
  upload_photo E (Some (JObj kvs)) w
  = (Ok (error_response "invalid session" 404), log (DbSelect session) w) /\
  photos_sent (new_events w (snd (upload_photo E (Some (JObj kvs)) w))) = [] /\
  (forall s, session = JStr s -> sid = s).
Proof.
  intros Hs Hts Hi Hti Hbind Hnone.
  rewrite (upload_photo_fields E kvs _ _ w Hs Hts Hi Hti). cbv zeta.
  rewrite Hbind, Hnone. cbn [snd]. rewrite new_events_log1.
  split_and!; [done | done |].
  intros s ->. rewrite (sqlite_text_str E) in Hbind. congruence.
Qed.

Lemma absent_session_not_found_witness :
  upload_photo Samples.host_down
    (Some (JObj (Samples.snapshot_fields "nobody" "data:image/png;base64,iVBORw0KGgo=")))
    Samples.one_session
  = (Ok (error_response "invalid session" 404),
     log (DbSelect (JStr "nobody")) Samples.one_session).
Proof.
  apply (absent_session_not_found Samples.host_down
           (Samples.snapshot_fields "nobody" "data:image/png;base64,iVBORw0KGgo=")
           (JStr "nobody") (JStr "data:image/png;base64,iVBORw0KGgo=") "nobody"
           Samples.one_session);
    reflexivity.
Defined.


(** C4, as stated, fails.  The body [{}] is JSON and lacks both fields, yet
    the answer is 400 "invalid json", not 400 "missing fields". *)
Lemma empty_object_is_invalid_json :
  py_get (JObj []) "session" = Ok JNull /\
  py_get (JObj []) "image" = Ok JNull /\
  upload_photo Samples.host_down (Some (JObj [])) Samples.one_session
  = (Ok (error_response "invalid json" 400), Samples.one_session) /\
  ~ (forall (E : env) (data : json) (w : world),
        py_get data "session" = Ok JNull ->
        fst (upload_photo E (Some data) w)
        = Ok (error_response "missing fields" 400)).
Proof.
  split_and!; [reflexivity | reflexivity | reflexivity |].
  intros H.
  specialize (H Samples.host_down (JObj []) Samples.one_session eq_refl).
  vm_compute in H. discriminate H.
Qed.

(** C4, amended.  The checks of [upload_photo] run in this order, the first
    that fails ends the request with its own status and error text, and no
    call follows it:
    - a body that is not JSON, or is a falsy JSON value, is answered 400
      "invalid json", before any call;
    - an object in which [session] or [image] is missing or falsy is answered
      400 "missing fields", before any call;
    - with both fields truthy and a session that binds as the parameter of
      the lookup, after that one lookup: 404 "invalid session" when the id is
      in no row; else, for an image that is a str, 400 "invalid image data"
      when it does not match the pattern, else 400 "base64 decode failed"
      with the detail when the payload does not decode; a request that passes
      the five checks is answered, and with neither 400 nor 404.
    A str that encodes binds as itself and is a subject of the pattern.  The
    five failures have pairwise distinct status and text. *)
Theorem validation_order (E : env) (w : world) :
  (forall req, truthy (default JNull req) = false ->
     upload_photo E req w = (Ok (error_response "invalid json" 400), w)) /\
  (forall kvs, kvs <> [] ->
     truthy (default JNull (assoc "session" kvs))
       && truthy (default JNull (assoc "image" kvs)) = false ->
     upload_photo E (Some (JObj kvs)) w
     = (Ok (error_response "missing fields" 400), w)) /\
  (forall kvs (session image : json) (sid : string),
     assoc "session" kvs = Some session -> truthy session = true ->
     assoc "image" kvs = Some image -> truthy image = true ->
     sqlite_text E session = Ok sid ->
     let run := upload_photo E (Some (JObj kvs)) w in
     let w1 := log (DbSelect session) w in
     match select_user_id sid (db w) with
     | None => run = (Ok (error_response "invalid session" 404), w1)
     | Some uid =>
         forall m, re_match image = Ok m ->
         match m with
         | None => run = (Ok (error_response "invalid image data" 400), w1)
         | Some groups =>
             match Base64.b64decode (group 2 groups) with
             | Raise e => run = (Ok (error_detail "base64 decode failed" e 400), w1)
             | Ok _ =>
                 exists resp w', run = (Ok resp, w') /\
                                 status resp <> 400 /\ status resp <> 404
             end
         end
     end) /\
  (forall s, sqlite_text E (JStr s) = Ok s /\
             re_match (JStr s) = Ok (Re.rmatch data_uri_re s)) /\
  NoDup [(400, "invalid json"); (400, "missing fields"); (404, "invalid session");
         (400, "invalid image data"); (400, "base64 decode failed")].
Proof.
  split_and!.
  - intros req Hreq. unfold upload_photo. by rewrite Hreq.
  - intros kvs Hkvs Hfields. unfold upload_photo. cbn [default from_option id].
    destruct kvs as [|kv kvs]; [done|]. cbn [truthy negb].
    unfold mbind, M_bind, lift, py_get.
    apply andb_false_iff in Hfields as [-> | ->]; cbn [negb orb]; [done|].
    by rewrite orb_true_r.
  - intros kvs session image sid Hs Hts Hi Hti Hbind. cbv zeta.
    rewrite (upload_photo_fields E kvs _ _ w Hs Hts Hi Hti). cbv zeta.
    rewrite Hbind.
    destruct (select_user_id sid (db w)) as [uid|]; [|done].
    intros m ->. destruct m as [groups|]; [|done].
    destruct (Base64.b64decode (group 2 groups)); [|done].
    eexists _, _. split; [done|]. by cbn.
  - intros s. split; [apply sqlite_text_str | done].
  - repeat (apply NoDup_cons; split;
            [rewrite ?not_elem_of_cons; split_and?; try discriminate;
             apply not_elem_of_nil|]).
    apply NoDup_nil_2.
Qed.

Lemma validation_order_witness :
  upload_photo Samples.host_down (Some (JObj [("session", JStr "Kioqlc3rJ2E")]))
    Samples.one_session
  = (Ok (error_response "missing fields" 400), Samples.one_session).
Proof.
  apply (proj1 (proj2 (validation_order Samples.host_down Samples.one_session))).
  - discriminate.
  - reflexivity.
Defined.

(** C10, as stated, fails.  The session is in the table and the payload
    [aGVsbG8=] followed by a line feed contains a line feed; the pattern
    matches, the payload decodes to [hello], and the snapshot is handed to
    [bot.send_photo] and answered 200. *)
Lemma trailing_newline_is_accepted :
  select_user_id "Kioqlc3rJ2E" (db Samples.one_session) = Some 7 /\
  has_chr "010" Samples.newline_payload = true /\
  upload_photo Samples.host_down Samples.newline_snapshot Samples.one_session
  = (Ok (jsonify [("ok", JBool true)] 200),
     log (SendPhoto 7 Samples.hello snapshot_name snapshot_caption)
         (log (DbSelect (JStr "Kioqlc3rJ2E")) Samples.one_session)) /\
  ~ (forall (E : env) kvs (sid subtype payload : string) (uid : Z) (w : world),
        assoc "session" kvs = Some (JStr sid) ->
        assoc "image" kvs
        = Some (JStr ("data:image/" +:+ subtype +:+ ";base64," +:+ payload)) ->
        select_user_id sid (db w) = Some uid ->
        has_chr "010" payload = true ->
        fst (upload_photo E (Some (JObj kvs)) w)
        = Ok (error_response "invalid image data" 400)).
Proof.
  split_and!; [reflexivity | reflexivity | reflexivity |].
  intros H.
  specialize (H Samples.host_down
                (Samples.snapshot_fields "Kioqlc3rJ2E"
                   ("data:image/png;base64," +:+ Samples.newline_payload))
                "Kioqlc3rJ2E" "png" Samples.newline_payload 7 Samples.one_session
                eq_refl eq_refl eq_refl eq_refl).
  vm_compute in H. discriminate H.
Qed.

(** C10, amended.  With a session of the table, an image
    [data:<mime>;base64,<payload>] is answered 400 "invalid image data", after
    the lookup and without any send, when the mime type does not begin with
    [image/], and when the payload has a line feed followed by at least one
    more character; whether the payload decodes plays no part. *)
Theorem data_uri_shape_enforced (E : env) kvs (sid mime payload : string) (uid : Z)
        (w : world) :
  assoc "session" kvs = Some (JStr sid) -> sid <> "" ->
  assoc "image" kvs = Some (JStr ("data:" +:+ mime +:+ ";base64," +:+ payload)) ->
  select_user_id sid (db w) = Some uid ->
  String.prefix "image/" mime = false \/
  (exists p1 p2, payload = p1 +:+ nl +:+ p2 /\ p2 <> "") ->
  upload_photo E (Some (JObj kvs)) w
  = (Ok (error_response "invalid image data" 400), log (DbSelect (JStr sid)) w).
Proof.
  intros Hs Hsid Hi Hrow Hshape.
  rewrite (upload_photo_typed E kvs sid _ w Hs Hsid Hi) by discriminate.
  rewrite Hrow.
  destruct Hshape as [Hmime | (p1 & p2 & -> & Hp2)].
  - by rewrite no_match_other_mime.
  - by rewrite no_match_inner_newline.
Qed.

Lemma data_uri_shape_enforced_witness :
  upload_photo Samples.host_down
    (Some (JObj (Samples.snapshot_fields "Kioqlc3rJ2E" "data:text/plain;base64,aGVsbG8=")))
    Samples.one_session
  = (Ok (error_response "invalid image data" 400),
     log (DbSelect (JStr "Kioqlc3rJ2E")) Samples.one_session).
Proof.
  apply (data_uri_shape_enforced Samples.host_down
           (Samples.snapshot_fields "Kioqlc3rJ2E" "data:text/plain;base64,aGVsbG8=")
           "Kioqlc3rJ2E" "text/plain" "aGVsbG8=" 7 Samples.one_session);
    try reflexivity.
  - discriminate.
  - left. reflexivity.
Defined.

End RelayFacts.

(** ** The token of a session *)
Module TokenFacts.
Import Base64.

Lemma byte_val_range (b : byte) : 0 <= byte_val b < 256.
Proof.
  unfold byte_val. pose proof (Byte.to_N_bounded b) as H. lia.
Qed.

Lemma byte_val_inj (a b : byte) : byte_val a = byte_val b -> a = b.
Proof.
  unfold byte_val. intros H. apply N2Z.inj in H.
  pose proof (Byte.of_to_N a) as Ha. rewrite H, Byte.of_to_N in Ha. congruence.
Qed.

(** The code of the character that stands for a 6-bit value. *)
Lemma code_urlsafe_chr (i : Z) :
  0 <= i < 64 ->
  code (urlsafe_chr i)
  = if i <? 26 then i + 65
    else if i <? 52 then i + 71
    else if i <? 62 then i - 4
    else if i =? 62 then 45 else 95.
Proof.
  intros Hi. unfold code, urlsafe_chr.
  rewrite N_ascii_embedding; [|repeat case_match; lia].
  rewrite Z2N.id; [done | repeat case_match; lia].
Qed.

Lemma urlsafe_chr_inj (i j : Z) :
  0 <= i < 64 -> 0 <= j < 64 -> urlsafe_chr i = urlsafe_chr j -> i = j.
Proof.
  intros Hi Hj H. apply (f_equal code) in H.
  rewrite !code_urlsafe_chr in H by done.
  repeat case_match; lia.
Qed.

Lemma urlsafe_chr_safe (i : Z) : 0 <= i < 64 -> url_safe (urlsafe_chr i) = true.
Proof.
  intros Hi. unfold url_safe. rewrite code_urlsafe_chr by done.
  repeat case_match; lia.
Qed.

Lemma urlsafe_chr_not_pad (i : Z) :
  0 <= i < 64 -> Ascii.eqb (urlsafe_chr i) "="%char = false.
Proof.
  intros Hi. apply Ascii.eqb_neq. intros H. apply (f_equal code) in H.
  rewrite code_urlsafe_chr in H by done.
  change (code "="%char) with 61 in H. repeat case_match; lia.
Qed.

(** The bit operations of the encoder, as arithmetic. *)
Lemma shiftr_div (a n : Z) : 0 <= n -> Z.shiftr a n = a / 2 ^ n.
Proof. apply Z.shiftr_div_pow2. Qed.

Lemma land_low (a n : Z) : 0 <= n -> Z.land a (Z.ones n) = a mod 2 ^ n.
Proof. apply Z.land_ones. Qed.

Lemma lor_disjoint (x y n : Z) :
  0 <= n -> 0 <= y < 2 ^ n -> Z.lor (Z.shiftl x n) y = x * 2 ^ n + y.
Proof.
  intros Hn Hy. pose proof (Z.add_lor_land (Z.shiftl x n) y) as Hadd.
  rewrite (Z.shiftl_mul_pow2 x n Hn) in Hadd at 3.
  assert (Z.land (Z.shiftl x n) y = 0) as Hland; [|lia].
  apply Z.bits_inj'. intros k Hk. rewrite Z.land_spec, Z.bits_0.
  destruct (Z.lt_ge_cases k n) as [Hlt|Hge].
  - by rewrite Z.shiftl_spec_low.
  - destruct (Z.eq_dec y 0) as [->|Hy0]; [by rewrite Z.bits_0, andb_false_r|].
    assert (Hlog : Z.log2 y < k).
    { apply Z.log2_lt_pow2; [lia|].
      apply Z.lt_le_trans with (2 ^ n); [lia|]. apply Z.pow_le_mono_r; lia. }
    rewrite (Z.bits_above_log2 y k (proj1 Hy) Hlog). apply andb_false_r.
Qed.

Lemma sextet2 (a b : Z) :
  0 <= b < 256 ->
  Z.lor (Z.shiftl (Z.land a 3) 4) (Z.shiftr b 4) = a mod 4 * 16 + b / 16.
Proof.
  intros Hb. rewrite (shiftr_div b 4) by lia.
  change 3 with (Z.ones 2). rewrite land_low by lia.
  rewrite lor_disjoint; [done | lia |].
  change (2 ^ 4) with 16. split; [apply Z.div_pos; lia | apply Z.div_lt_upper_bound; lia].
Qed.

Lemma sextet3 (b c : Z) :
  0 <= c < 256 ->
  Z.lor (Z.shiftl (Z.land b 15) 2) (Z.shiftr c 6) = b mod 16 * 4 + c / 64.
Proof.
  intros Hc. rewrite (shiftr_div c 6) by lia.
  change 15 with (Z.ones 4). rewrite land_low by lia.
  rewrite lor_disjoint; [done | lia |].
  change (2 ^ 6) with 64. change (2 ^ 2) with 4.
  split; [apply Z.div_pos; lia | apply Z.div_lt_upper_bound; lia].
Qed.

Lemma sextet3_last (b : Z) : Z.shiftl (Z.land b 15) 2 = b mod 16 * 4.
Proof.
  change 15 with (Z.ones 4). rewrite land_low by lia.
  by rewrite Z.shiftl_mul_pow2 by lia.
Qed.

Lemma sextet4 (c : Z) : Z.land c 63 = c mod 64.
Proof. change 63 with (Z.ones 6). by rewrite land_low by lia. Qed.

Lemma rstrip_pad_last (l : list ascii) (c : ascii) :
  Ascii.eqb c "="%char = false ->
  rstrip_pad (l ++ [c; "="%char]) = (l ++ [c])%list.
Proof.
  intros Hc. induction l as [|a l IH].
  - simpl. by rewrite Hc.
  - change (rstrip_pad ((a :: l) ++ [c; "="%char]))
      with (match rstrip_pad (l ++ [c; "="%char]) with
            | [] => if Ascii.eqb a "="%char then [] else [a]
            | r' => a :: r'
            end).
    rewrite IH. by destruct l.
Qed.

(** The token made of eight bytes, character by character. *)
Lemma token_of_8 (b1 b2 b3 b4 b5 b6 b7 b8 : byte) :
  rstrip_pad (urlsafe_b64encode [b1; b2; b3; b4; b5; b6; b7; b8])
  = map urlsafe_chr
      [byte_val b1 / 4; byte_val b1 mod 4 * 16 + byte_val b2 / 16;
       byte_val b2 mod 16 * 4 + byte_val b3 / 64; byte_val b3 mod 64;
       byte_val b4 / 4; byte_val b4 mod 4 * 16 + byte_val b5 / 16;
       byte_val b5 mod 16 * 4 + byte_val b6 / 64; byte_val b6 mod 64;
       byte_val b7 / 4; byte_val b7 mod 4 * 16 + byte_val b8 / 16;
       byte_val b8 mod 16 * 4].
Proof.
  cbn [urlsafe_b64encode].
  pose proof (byte_val_range b2). pose proof (byte_val_range b3).
  pose proof (byte_val_range b5). pose proof (byte_val_range b6).
  pose proof (byte_val_range b8).
  rewrite !sextet2, !sextet3, !sextet3_last, !sextet4, !(shiftr_div _ 2) by lia.
  change (2 ^ 2) with 4.
  match goal with
  | |- rstrip_pad (?c1 :: ?c2 :: ?c3 :: ?c4 :: ?c5 :: ?c6 :: ?c7 :: ?c8 :: ?c9 ::
                   ?c10 :: ?c11 :: ?p :: []) = _ =>
      change (rstrip_pad ([c1; c2; c3; c4; c5; c6; c7; c8; c9; c10] ++ [c11; p])
              = [c1; c2; c3; c4; c5; c6; c7; c8; c9; c10] ++ [c11])%list
  end.
  apply rstrip_pad_last, urlsafe_chr_not_pad.
  pose proof (Z.mod_pos_bound (byte_val b8) 16). lia.
Qed.

Lemma list_of_length_8 {A} (l : list A) :
  length l = 8%nat ->
  exists a1 a2 a3 a4 a5 a6 a7 a8, l = [a1; a2; a3; a4; a5; a6; a7; a8].
Proof.
  intros H. do 8 (destruct l as [|? l]; [discriminate|]).
  destruct l; [|discriminate]. by repeat eexists.
Qed.

Ltac sextet_bounds :=
  repeat match goal with
         | b : byte |- _ =>
             lazymatch goal with
             | H : 0 <= byte_val b < 256 |- _ => fail
             | _ => pose proof (byte_val_range b)
             end
         end.

(** A token of eight random bytes has eleven characters, all URL-safe. *)
Lemma token_shape (bs : list byte) :
  length bs = 8%nat ->
  length (rstrip_pad (urlsafe_b64encode bs)) = 11%nat /\
  forallb url_safe (rstrip_pad (urlsafe_b64encode bs)) = true.
Proof.
  intros Hlen. destruct (list_of_length_8 bs Hlen) as (b1&b2&b3&b4&b5&b6&b7&b8&->).
  rewrite token_of_8. split; [reflexivity|].
  sextet_bounds. cbn [map forallb].
  rewrite !urlsafe_chr_safe; [done|..];
    (split; [|apply Z.lt_le_pred; cbn]);
    Z.div_mod_to_equations; lia.
Qed.

(** Distinct eight-byte strings give distinct tokens: the token keeps the
    64 bits of its source. *)
Lemma token_injective (bs bs' : list byte) :
  length bs = 8%nat -> length bs' = 8%nat ->
  rstrip_pad (urlsafe_b64encode bs) = rstrip_pad (urlsafe_b64encode bs') ->
  bs = bs'.
Proof.
  intros Hlen Hlen'.
  destruct (list_of_length_8 bs Hlen) as (b1&b2&b3&b4&b5&b6&b7&b8&->).
  destruct (list_of_length_8 bs' Hlen') as (c1&c2&c3&c4&c5&c6&c7&c8&->).
  rewrite !token_of_8. cbn [map]. intros H.
  sextet_bounds.
  injection H as E1 E2 E3 E4 E5 E6 E7 E8 E9 E10 E11.
  apply urlsafe_chr_inj in E1, E2, E3, E4, E5, E6, E7, E8, E9, E10, E11;
    try (Z.div_mod_to_equations; lia).
  assert (byte_val b1 = byte_val c1) by (Z.div_mod_to_equations; lia).
  assert (byte_val b2 = byte_val c2) by (Z.div_mod_to_equations; lia).
  assert (byte_val b3 = byte_val c3) by (Z.div_mod_to_equations; lia).
  assert (byte_val b4 = byte_val c4) by (Z.div_mod_to_equations; lia).
  assert (byte_val b5 = byte_val c5) by (Z.div_mod_to_equations; lia).
  assert (byte_val b6 = byte_val c6) by (Z.div_mod_to_equations; lia).
  assert (byte_val b7 = byte_val c7) by (Z.div_mod_to_equations; lia).
  assert (byte_val b8 = byte_val c8) by (Z.div_mod_to_equations; lia).
  repeat f_equal; by apply byte_val_inj.
Qed.

End TokenFacts.

(** ** The photo handler *)
Module HandlerFacts.
Import SessionStore RelayFacts TokenFacts.

(** *** Computations that do not write *)

Lemma rows_written_app (a b : list event) :
  rows_written (a ++ b) = (rows_written a ++ rows_written b)%list.
Proof. unfold rows_written. apply flat_map_app. Qed.

Lemma quiet_ret {A} (a : A) : quiet (mret a : M A).
Proof. intros w. split; [done|]. exists []. by rewrite app_nil_r. Qed.

Lemma quiet_raise {A} (e : exn) : quiet (raise e : M A).
Proof. intros w. split; [done|]. exists []. by rewrite app_nil_r. Qed.

Lemma quiet_lift {A} (r : result A) : quiet (lift r).
Proof. intros w. split; [done|]. exists []. by rewrite app_nil_r. Qed.

Lemma quiet_bind {A B} (m : M A) (f : A -> M B) :
  quiet m -> (forall a, quiet (f a)) -> quiet (m ≫= f).
Proof.
  intros Hm Hf w. unfold mbind, M_bind.
  destruct (Hm w) as (Hdb & evs & Htr & Hrows).
  destruct (m w) as [[a|e] w1]; cbn [snd] in *.
  - destruct (Hf a w1) as (Hdb' & evs' & Htr' & Hrows').
    split; [congruence|]. exists (evs ++ evs')%list.
    rewrite Htr', Htr, <- app_assoc, rows_written_app, Hrows, Hrows'. done.
  - split; [done|]. by exists evs.
Qed.

Lemma quiet_catch {A} (m : M A) (h : exn -> M A) :
  quiet m -> (forall e, quiet (h e)) -> quiet (catch m h).
Proof.
  intros Hm Hh w. unfold catch.
  destruct (Hm w) as (Hdb & evs & Htr & Hrows).
  destruct (m w) as [[a|e] w1]; cbn [snd] in *.
  - split; [done|]. by exists evs.
  - destruct (Hh e w1) as (Hdb' & evs' & Htr' & Hrows').
    split; [congruence|]. exists (evs ++ evs')%list.
    rewrite Htr', Htr, <- app_assoc, rows_written_app, Hrows, Hrows'. done.
Qed.

Lemma quiet_call (ev : event) (outcome : option exn) :
  rows_written [ev] = [] -> quiet (call ev outcome).
Proof.
  intros Hev w. unfold call.
  destruct outcome; cbn [snd]; (split; [done|]); by exists [ev].
Qed.

Lemma quiet_http_post E target filename timeout :
  quiet (http_post E target filename timeout).
Proof. intros w. unfold http_post. cbn [snd]. split; [done|]. by eexists [_]. Qed.

Lemma quiet_if {A} (b : bool) (m1 m2 : M A) :
  quiet m1 -> quiet m2 -> quiet (if b then m1 else m2).
Proof. by destruct b. Qed.

Lemma quiet_message_attr u attr : quiet (message_attr u attr).
Proof. unfold message_attr. destruct (message_photo u); [apply quiet_ret | apply quiet_raise]. Qed.

Lemma quiet_user_id_of u : quiet (user_id_of u).
Proof. unfold user_id_of. destruct (effective_user_id u); [apply quiet_ret | apply quiet_raise]. Qed.

Lemma quiet_last_photo photos : quiet (last_photo photos).
Proof. unfold last_photo. destruct (last photos); [apply quiet_ret | apply quiet_raise]. Qed.

Lemma quiet_message_reply_text E u text markup :
  quiet (message_reply_text E u text markup).
Proof.
  unfold message_reply_text. apply quiet_bind; [apply quiet_message_attr|].
  intros _. by apply quiet_call.
Qed.

Lemma quiet_download_photo E u : quiet (download_photo E u).
Proof.
  unfold download_photo.
  repeat first
    [ apply quiet_bind; [|intros ?]
    | apply quiet_message_attr | apply quiet_last_photo | apply quiet_user_id_of
    | apply quiet_ret | by apply quiet_call ].
Qed.

Lemma quiet_read_response resp image_url : quiet (read_response resp image_url).
Proof.
  unfold read_response. apply quiet_catch; [|intros ?; apply quiet_ret].
  repeat first
    [ apply quiet_bind; [|intros ?] | apply quiet_lift | apply quiet_if | apply quiet_ret ].
Qed.

Lemma quiet_resolve_upload E file_path filename image_url :
  quiet (resolve_upload E file_path filename image_url).
Proof.
  unfold resolve_upload. apply quiet_catch; [|intros ?; apply quiet_ret].
  repeat first
    [ apply quiet_bind; [|intros ?] | by apply quiet_call | apply quiet_http_post
    | apply quiet_if | apply quiet_read_response | apply quiet_ret ].
Qed.

(** What a quiet computation adds to the trace writes no row. *)
Lemma quiet_new_events {A} (m : M A) (w : world) :
  quiet m ->
  db (snd (m w)) = db w /\ rows_written (new_events w (snd (m w))) = [].
Proof.
  intros Hm. destruct (Hm w) as (Hdb & evs & Htr & Hrows).
  split; [done|]. unfold new_events. by rewrite Htr, drop_app_length.
Qed.

(** *** The upload attempt *)

(** The inner [try] computes the classification of the specification. *)
Lemma read_response_spec (resp : response) (url : json) (w : world) :
  ok resp = true ->
  read_response resp url w
  = (Ok match remote_file_url resp with
        | Some file_url => Outcome true file_url None
        | None => Outcome false url None
        end, w).
Proof.
  intros Hok. unfold read_response, remote_file_url, catch, mbind, M_bind, lift, mret, M_ret.
  rewrite Hok.
  destruct (json_body resp) as [j|e]; [|reflexivity].
  destruct (py_get j "success") as [s|e]; [|reflexivity].
  destruct (truthy s); cbn [andb].
  - destruct (py_get j "file_url") as [f|e]; [|reflexivity].
    by destruct (truthy f).
  - by destruct (py_get j "file_url").
Qed.

(** The upload attempt always returns an outcome: the one the specification
    describes. *)
Lemma resolve_upload_spec (E : env) (file_path filename : string) (url : json)
      (w : world) :
  resolve_upload E file_path filename url w =
  match open_rb E file_path with
  | Some e => (Ok (Outcome false url (Some (exn_str e))), log (OpenRb file_path) w)
  | None =>
      let w1 := log (Post (HOST_URL_CLEAN E +:+ "/home.php") filename 30)
                    (log (OpenRb file_path) w) in
      match requests_post E (HOST_URL_CLEAN E +:+ "/home.php") filename 30 with
      | Raise e => (Ok (Outcome false url (Some (exn_str e))), w1)
      | Ok resp =>
          match remote_file_url resp with
          | Some file_url => (Ok (Outcome true file_url None), w1)
          | None => (Ok (Outcome false url None), w1)
          end
      end
  end.
Proof.
  unfold resolve_upload, catch, mbind, M_bind, call, http_post, mret, M_ret.
  destruct (open_rb E file_path) as [e|]; [reflexivity|].
  destruct (requests_post E _ filename 30) as [resp|e]; [|reflexivity].
  destruct (ok resp) eqn:Hok.
  - rewrite read_response_spec by done. by destruct (remote_file_url resp).
  - unfold remote_file_url. by rewrite Hok.
Qed.

(** *** The three blocks of the handler *)

Lemma download_photo_ok (E : env) (u : update) (w w1 : world) filename file_path :
  download_photo E u w = (Ok (filename, file_path), w1) ->
  exists uid photos,
    effective_user_id u = Some uid /\ message_photo u = Some photos /\
    filename = file_name uid (time_now E).
Proof.
  unfold download_photo, mbind, M_bind, message_attr, last_photo, user_id_of,
    call, mret, M_ret, raise.
  destruct (message_photo u) as [photos|]; [|discriminate].
  destruct (last photos) as [photo|]; [|discriminate].
  destruct (get_file E photo); [discriminate|].
  destruct (effective_user_id u) as [uid|]; [|discriminate].
  destruct (os_makedirs E _); [discriminate|].
  destruct (download_to_drive E _ _); [discriminate|].
  intros [= <- _ _]. by exists uid, photos.
Qed.

Lemma image_handler_body_steps (E : env) (u : update) (w w1 w2 : world)
      filename file_path out :
  download_photo E u w = (Ok (filename, file_path), w1) ->
  resolve_upload E file_path filename (JStr (default_url E filename)) w1
  = (Ok out, w2) ->
  image_handler_body E u w = issue_links E u out w2.
Proof.
  intros Hd Hr. unfold image_handler_body, mbind, M_bind. by rewrite Hd, Hr.
Qed.

(** When the upload has not succeeded the URL is the one the attempt was
    given. *)
Lemma resolve_upload_fallback_url (E : env) file_path filename url w out w' :
  resolve_upload E file_path filename url w = (Ok out, w') ->
  uploaded_remote out = false ->
  image_url out = url.
Proof.
  rewrite resolve_upload_spec. cbv zeta.
  repeat case_match; intros [= <- _]; cbn; done.
Qed.

Lemma issue_links_fallback (E : env) (u : update) out (w : world) uid photos url :
  effective_user_id u = Some uid -> message_photo u = Some photos ->
  uploaded_remote out = false -> image_url out = JStr url ->
  issue_links E u out w =
  let short_url := JStr (HOST_URL_CLEAN E +:+ "/i/" +:+ token_urlsafe E 8) in
  let r := Row uid (token_urlsafe E 8) url in
  call (ReplyText (fallback_text E short_url (JStr url) (upload_error out))
                  (Some (link_keyboard short_url (JStr url))))
       (reply_text E (fallback_text E short_url (JStr url) (upload_error out))
                   (Some (link_keyboard short_url (JStr url))))
       (World (insert_or_replace r (db w)) (trace w ++ [DbInsert r; DbCommit])).
Proof.
  intros Hu Hm Hup Hurl.
  unfold issue_links, mbind, M_bind, user_id_of, db_insert_or_replace, db_commit,
    message_reply_text, message_attr, mret, M_ret.
  rewrite Hup, Hurl, Hu, Hm. cbn [negb]. rewrite (sqlite_text_str E).
  unfold call at 1, log. cbn [db trace]. by rewrite <- app_assoc.
Qed.

Lemma issue_links_remote (E : env) (u : update) out (w : world) photos :
  message_photo u = Some photos -> uploaded_remote out = true ->
  issue_links E u out w =
  call (ReplyText (uploaded_text E (image_url out))
                  (Some (link_keyboard (image_url out) (image_url out))))
       (reply_text E (uploaded_text E (image_url out))
                   (Some (link_keyboard (image_url out) (image_url out)))) w.
Proof.
  intros Hm Hup.
  unfold issue_links, mbind, M_bind, message_reply_text, message_attr, mret, M_ret.
  by rewrite Hup, Hm.
Qed.

(** The handler after its last reply: the reply is recorded, and what may
    follow it (the report of its failure) writes no row. *)
Lemma image_handler_after_reply (E : env) (u : update) (w w3 : world) ev outcome :
  image_handler_body E u w = call ev outcome w3 ->
  db (snd (image_handler E u w)) = db w3 /\
  exists rest, trace (snd (image_handler E u w)) = (trace w3 ++ [ev] ++ rest)%list /\
               rows_written rest = [].
Proof.
  intros Hbody. unfold image_handler, catch. rewrite Hbody. unfold call.
  destruct outcome as [e|]; cbn [snd].
  - destruct (quiet_message_reply_text E u (error_text e) None (log ev w3))
      as (Hdb & evs & Htr & Hrows).
    destruct (message_reply_text E u (error_text e) None (log ev w3)) as [r w4].
    cbn [snd] in *. split; [done|]. exists evs.
    rewrite Htr. cbn [log trace]. by rewrite <- app_assoc.
  - split; [done|]. by exists [].
Qed.

Lemma new_events_app (w w' : world) (evs : list event) :
  trace w' = (trace w ++ evs)%list -> new_events w w' = evs.
Proof. intros H. unfold new_events. by rewrite H, drop_app_length. Qed.

(** *** The two ways a photo is answered *)

(** The run of the handler on the fallback path. *)
Lemma fallback_run (E : env) (u : update) (w w1 w2 : world) filename file_path out :
  download_photo E u w = (Ok (filename, file_path), w1) ->
  resolve_upload E file_path filename (JStr (default_url E filename)) w1
  = (Ok out, w2) ->
  uploaded_remote out = false ->
  exists uid,
    effective_user_id u = Some uid /\
    let short_url := JStr (HOST_URL_CLEAN E +:+ "/i/" +:+ token_urlsafe E 8) in
    let direct := JStr (default_url E filename) in
    let r := Row uid (token_urlsafe E 8) (default_url E filename) in
    let w' := snd (image_handler E u w) in
    image_url out = direct /\
    rows_written (new_events w w') = [r] /\
    db w' = insert_or_replace r (db w) /\
    ReplyText (fallback_text E short_url direct (upload_error out))
              (Some (link_keyboard short_url direct)) ∈ new_events w w'.
Proof.
  intros Hd Hr Hup.
  destruct (download_photo_ok E u w w1 _ _ Hd) as (uid & photos & Hu & Hm & Hfn).
  exists uid. split; [exact Hu|]. cbv zeta.
  pose proof (resolve_upload_fallback_url _ _ _ _ _ _ _ Hr Hup) as Hurl.
  split; [exact Hurl|].
  pose proof (image_handler_body_steps E u w w1 w2 _ _ _ Hd Hr) as Hbody.
  rewrite (issue_links_fallback E u out w2 uid photos _ Hu Hm Hup Hurl) in Hbody.
  cbv zeta in Hbody.
  destruct (image_handler_after_reply E u w _ _ _ Hbody) as (Hdb & rest & Htr & Hrest).
  cbn [db trace] in Hdb, Htr.
  destruct (quiet_download_photo E u w) as (Hdb1 & evs1 & Htr1 & Hrows1).
  rewrite Hd in Hdb1, Htr1. cbn [snd] in Hdb1, Htr1.
  destruct (quiet_resolve_upload E file_path filename (JStr (default_url E filename)) w1)
    as (Hdb2 & evs2 & Htr2 & Hrows2).
  rewrite Hr in Hdb2, Htr2. cbn [snd] in Hdb2, Htr2.
  rewrite Htr2, Htr1, <- !app_assoc in Htr.
  rewrite (new_events_app _ _ _ Htr).
  split_and!.
  - by rewrite !rows_written_app, Hrows1, Hrows2, Hrest.
  - by rewrite Hdb, Hdb2, Hdb1.
  - rewrite !elem_of_app. right. right. right. left. apply list_elem_of_singleton. done.
Qed.

(** The run of the handler when the remote host has taken the file. *)
Lemma remote_run (E : env) (u : update) (w w1 w2 : world) filename file_path out :
  download_photo E u w = (Ok (filename, file_path), w1) ->
  resolve_upload E file_path filename (JStr (default_url E filename)) w1
  = (Ok out, w2) ->
  uploaded_remote out = true ->
  let w' := snd (image_handler E u w) in
  rows_written (new_events w w') = [] /\
  db w' = db w /\
  ReplyText (uploaded_text E (image_url out))
            (Some (link_keyboard (image_url out) (image_url out))) ∈ new_events w w'.
Proof.
  intros Hd Hr Hup. cbv zeta.
  destruct (download_photo_ok E u w w1 _ _ Hd) as (uid & photos & Hu & Hm & Hfn).
  pose proof (image_handler_body_steps E u w w1 w2 _ _ _ Hd Hr) as Hbody.
  rewrite (issue_links_remote E u out w2 photos Hm Hup) in Hbody.
  destruct (image_handler_after_reply E u w _ _ _ Hbody) as (Hdb & rest & Htr & Hrest).
  destruct (quiet_download_photo E u w) as (Hdb1 & evs1 & Htr1 & Hrows1).
  rewrite Hd in Hdb1, Htr1. cbn [snd] in Hdb1, Htr1.
  destruct (quiet_resolve_upload E file_path filename (JStr (default_url E filename)) w1)
    as (Hdb2 & evs2 & Htr2 & Hrows2).
  rewrite Hr in Hdb2, Htr2. cbn [snd] in Hdb2, Htr2.
  rewrite Htr2, Htr1, <- !app_assoc in Htr.
  rewrite (new_events_app _ _ _ Htr).
  split_and!.
  - by rewrite !rows_written_app, Hrows1, Hrows2, Hrest.
  - by rewrite Hdb, Hdb2, Hdb1.
  - rewrite !elem_of_app. right. right. left. by apply list_elem_of_singleton.
Qed.

Lemma length_string_of_list (l : list ascii) :
  String.length (string_of_list_ascii l) = length l.
Proof. induction l as [|c l IH]; simpl; [done | by rewrite IH]. Qed.

(** C1.  When the photo has been saved and the upload has not succeeded, the
    handler mints the token [secrets.token_urlsafe(8)]: eleven URL-safe
    characters that determine the eight random bytes they encode; it writes
    exactly one row, (sender, token, default URL), which is the [put] of the
    session table; the share link is [<host>/i/<token>] and the direct link is
    the default URL built before the attempt, which is also the URL the
    attempt has left.  The row is stored: in the table the handler leaves,
    the lookup of the token returns the sender and the default URL, and the
    lookup of the relay returns the sender. *)
Theorem fallback_mints_session (E : env) (u : update) (w w1 w2 : world)
        filename file_path out :
  download_photo E u w = (Ok (filename, file_path), w1) ->
  resolve_upload E file_path filename (JStr (default_url E filename)) w1
  = (Ok out, w2) ->
  uploaded_remote out = false ->
  exists uid,
    effective_user_id u = Some uid /\
    let token := token_urlsafe E 8 in
    let share_link := JStr (HOST_URL_CLEAN E +:+ "/i/" +:+ token) in
    let direct_link := JStr (default_url E filename) in
    let w' := snd (image_handler E u w) in
    String.length token = 11%nat /\
    forallb Base64.url_safe (list_ascii_of_string token) = true /\
    (forall E', token_urlsafe E' 8 = token -> token_bytes E' 8 = token_bytes E 8) /\
    rows_written (new_events w w') = [Row uid token (default_url E filename)] /\
    db w' = put token uid (default_url E filename) (db w) /\
    image_url out = direct_link /\
    ReplyText (fallback_text E share_link direct_link (upload_error out))
              (Some [[Button "Share Link" share_link];
                     [Button "Direct Image Link" direct_link]])
      ∈ new_events w w' /\
    get token (db w') = Some (uid, default_url E filename) /\
    select_user_id token (db w') = Some uid.
Proof.
  intros Hd Hr Hup.
  destruct (fallback_run E u w w1 w2 _ _ _ Hd Hr Hup)
    as (uid & Hu & Hurl & Hrows & Hdb & Hreply).
  exists uid. split; [exact Hu|]. cbv zeta.
  destruct (token_shape (token_bytes E 8) (token_bytes_length E 8)) as [Hlen Hsafe].
  assert (Hrow : select_row (token_urlsafe E 8) (db (snd (image_handler E u w)))
                 = Some (Row uid (token_urlsafe E 8) (default_url E filename))).
  { rewrite Hdb.
    apply (SessionStoreFacts.select_insert_same
             (Row uid (token_urlsafe E 8) (default_url E filename))). }
  unfold get, select_user_id. rewrite Hrow. cbn [option_map user_id original_image].
  unfold token_urlsafe at 1 2.
  rewrite length_string_of_list, list_ascii_of_string_of_list_ascii.
  split_and!; try done.
  intros E' Htok. unfold token_urlsafe in Htok.
  apply (f_equal list_ascii_of_string) in Htok.
  rewrite !list_ascii_of_string_of_list_ascii in Htok.
  apply token_injective; [apply token_bytes_length | apply token_bytes_length | exact Htok].
Qed.

Lemma fallback_mints_session_witness :
  exists uid, effective_user_id Samples.photo_update = Some uid /\
    db (snd (image_handler Samples.host_down Samples.photo_update Samples.one_session))
    = put (token_urlsafe Samples.host_down 8) uid
          (default_url Samples.host_down "image_42_1700000000.jpg")
          (db Samples.one_session).
Proof.
  destruct (fallback_mints_session Samples.host_down Samples.photo_update
              Samples.one_session
              (snd (download_photo Samples.host_down Samples.photo_update
                      Samples.one_session))
              (snd (resolve_upload Samples.host_down "uploads/image_42_1700000000.jpg"
                      "image_42_1700000000.jpg"
                      (JStr (default_url Samples.host_down "image_42_1700000000.jpg"))
                      (snd (download_photo Samples.host_down Samples.photo_update
                              Samples.one_session))))
              "image_42_1700000000.jpg" "uploads/image_42_1700000000.jpg"
              (Outcome false
                 (JStr (default_url Samples.host_down "image_42_1700000000.jpg"))
                 (Some "connection refused"))
              eq_refl eq_refl eq_refl)
    as (uid & Hu & _ & _ & _ & _ & Hdb & _).
  exists uid. split; [exact Hu | exact Hdb].
Defined.

Lemma remote_file_url_Some (resp : response) (file_url : json) :
  remote_file_url resp = Some file_url <->
  ok resp = true /\
  exists j success, json_body resp = Ok j /\
    py_get j "success" = Ok success /\ truthy success = true /\
    py_get j "file_url" = Ok file_url /\ truthy file_url = true.
Proof.
  unfold remote_file_url. split.
  - destruct (ok resp); [|discriminate].
    destruct (json_body resp) as [j|]; [|discriminate].
    destruct (py_get j "success") as [s|] eqn:Hgs; [|discriminate].
    destruct (py_get j "file_url") as [f|] eqn:Hgf; [|discriminate].
    destruct (truthy s) eqn:Hs, (truthy f) eqn:Hf; try discriminate.
    intros [= <-]. split; [done|]. by exists j, s.
  - intros (-> & j & s & -> & -> & Hs & -> & Hf). by rewrite Hs, Hf.
Qed.

(** C2.  When the photo has been saved and the remote host answers the
    upload with a success status and well-formed JSON holding a truthy
    [success] and a truthy [file_url], the share link and the direct link of
    the reply are both that [file_url], no row is written and the table is
    unchanged. *)
Theorem remote_success_links (E : env) (u : update) (w w1 : world)
        filename file_path resp j success file_url :
  download_photo E u w = (Ok (filename, file_path), w1) ->
  open_rb E file_path = None ->
  requests_post E (HOST_URL_CLEAN E +:+ "/home.php") filename 30 = Ok resp ->
  ok resp = true ->
  json_body resp = Ok j ->
  py_get j "success" = Ok success -> truthy success = true ->
  py_get j "file_url" = Ok file_url -> truthy file_url = true ->
  let w' := snd (image_handler E u w) in
  ReplyText (uploaded_text E file_url)
            (Some [[Button "Share Link" file_url];
                   [Button "Direct Image Link" file_url]]) ∈ new_events w w' /\
  rows_written (new_events w w') = [] /\
  db w' = db w.
Proof.
  intros Hd Hopen Hpost Hok Hj Hs Hst Hf Hft. cbv zeta.
  assert (Hurl : remote_file_url resp = Some file_url).
  { apply remote_file_url_Some. split; [done|]. by exists j, success. }
  pose proof (resolve_upload_spec E file_path filename
                (JStr (default_url E filename)) w1) as Hr.
  rewrite Hopen, Hpost, Hurl in Hr. cbv zeta in Hr.
  destruct (remote_run E u w w1 _ _ _ _ Hd Hr eq_refl) as (Hrows & Hdb & Hreply).
  by split_and!.
Qed.

Lemma remote_success_links_witness :
  db (snd (image_handler Samples.host_up Samples.photo_update Samples.one_session))
  = db Samples.one_session.
Proof.
  apply (remote_success_links Samples.host_up Samples.photo_update Samples.one_session
           (snd (download_photo Samples.host_up Samples.photo_update Samples.one_session))
           "image_42_1700000000.jpg" "uploads/image_42_1700000000.jpg"
           (Response true (Ok Samples.accepted_body)) Samples.accepted_body
           (JBool true) (JStr "http://shareimage.42web.io/uploads/a.jpg"));
    reflexivity.
Defined.

(** C6.  When the file opens and the request returns, a response whose body
    is not JSON, or holds no truthy [success], or holds no truthy [file_url],
    gives the outcome (not uploaded, the URL as it was, no error), and the
    fallback message built from it has no error text; when the request raises,
    the outcome is (not uploaded, the URL as it was, the text of the
    exception), and a non-empty text is quoted in the message. *)
Theorem silent_fallback (E : env) (file_path filename : string) (url : json)
        (w : world) :
  let target := HOST_URL_CLEAN E +:+ "/home.php" in
  (forall resp,
      open_rb E file_path = None ->
      requests_post E target filename 30 = Ok resp ->
      (exists e, json_body resp = Raise e) \/
      (exists j, json_body resp = Ok j /\
                 forall success, py_get j "success" = Ok success ->
                                 truthy success = false) \/
      (exists j, json_body resp = Ok j /\
                 forall file_url, py_get j "file_url" = Ok file_url ->
                                  truthy file_url = false) ->
      fst (resolve_upload E file_path filename url w) = Ok (Outcome false url None)) /\
  (forall e,
      open_rb E file_path = None ->
      requests_post E target filename 30 = Raise e ->
      fst (resolve_upload E file_path filename url w)
      = Ok (Outcome false url (Some (exn_str e)))) /\
  (forall short_url,
      fallback_text E short_url url None
      = fallback_notice +:+ nl +:+ nl +:+
        "Local Link: " +:+ fmt E short_url +:+ nl +:+
        "Direct (assumed) URL: " +:+ fmt E url +:+ nl +:+ nl) /\
  (forall short_url detail,
      detail <> "" ->
      fallback_text E short_url url (Some detail)
      = fallback_notice +:+ nl +:+ nl +:+
        "Local Link: " +:+ fmt E short_url +:+ nl +:+
        "Direct (assumed) URL: " +:+ fmt E url +:+
        (nl +:+ "(Upload to host failed: " +:+ detail +:+ ")") +:+ nl +:+ nl).
Proof.
  cbv zeta. split_and!.
  - intros resp Hopen Hpost Hbad.
    rewrite resolve_upload_spec, Hopen, Hpost. cbv zeta.
    assert (remote_file_url resp = None) as ->; [|done].
    destruct (remote_file_url resp) as [f|] eqn:Hf; [|done]. exfalso.
    apply remote_file_url_Some in Hf as (_ & j & s & Hj & Hs & Hst & Hfu & Hft).
    destruct Hbad as [[e He] | [(j' & Hj' & Hno) | (j' & Hj' & Hno)]].
    + congruence.
    + assert (j' = j) as -> by congruence. specialize (Hno s Hs). congruence.
    + assert (j' = j) as -> by congruence. specialize (Hno f Hfu). congruence.
  - intros e Hopen Hpost. by rewrite resolve_upload_spec, Hopen, Hpost.
  - reflexivity.
  - intros short_url detail Hdetail. unfold fallback_text, err_text.
    by destruct (String.eqb_spec detail "").
Qed.

Lemma silent_fallback_witness :
  fst (resolve_upload (Samples.env_of (Ok (Response true (Ok (JObj [("success", JBool true)]))))
                         None None)
         "uploads/a.jpg" "a.jpg" (JStr "http://shareimage.42web.io/uploads/a.jpg")
         Samples.one_session)
  = Ok (Outcome false (JStr "http://shareimage.42web.io/uploads/a.jpg") None).
Proof.
  apply (proj1 (silent_fallback
                  (Samples.env_of (Ok (Response true (Ok (JObj [("success", JBool true)]))))
                     None None)
                  "uploads/a.jpg" "a.jpg" (JStr "http://shareimage.42web.io/uploads/a.jpg")
                  Samples.one_session)
           (Response true (Ok (JObj [("success", JBool true)]))));
    [reflexivity | reflexivity |].
  right. right. exists (JObj [("success", JBool true)]). split; [reflexivity|].
  intros file_url H. injection H as <-. reflexivity.
Defined.

(** C8, as stated, fails.  Telegram refuses every call: the reply at the end
    of the body raises, the handler catches it, the reply that reports it
    raises too, and that exception leaves the handler. *)
Lemma failed_report_propagates :
  fst (image_handler_body Samples.telegram_down Samples.photo_update
         Samples.one_session)
  = Raise Samples.blocked /\
  fst (image_handler Samples.telegram_down Samples.photo_update Samples.one_session)
  = Raise Samples.blocked /\
  ~ (forall (E : env) (u : update) (w w1 : world) (e : exn),
        image_handler_body E u w = (Raise e, w1) ->
        exists w', image_handler E u w = (Ok tt, w')).
Proof.
  split_and!; [reflexivity | reflexivity |].
  intros H.
  destruct (H Samples.telegram_down Samples.photo_update Samples.one_session
              (snd (image_handler_body Samples.telegram_down Samples.photo_update
                      Samples.one_session))
              Samples.blocked eq_refl) as [w' Hw'].
  vm_compute in Hw'. discriminate Hw'.
Qed.

(** C8, amended.  The upload attempt returns an outcome in every state and
    for every behaviour of the collaborators, and its URL is the default URL
    it was given unless the remote host provided a truthy one; the default
    URL depends on the host and the file name only; an exception raised in the
    body of the handler is caught and answered by one reply that carries the
    generic error text, and the handler returns normally when that reply is
    delivered (an exception of that reply is not caught); a body that returns
    makes the handler return. *)
Theorem failures_are_contained (E : env) (u : update) (w : world) :
  (forall file_path filename url w0,
      exists out w',
        resolve_upload E file_path filename url w0 = (Ok out, w') /\
        (uploaded_remote out = false -> image_url out = url) /\
        (uploaded_remote out = true -> truthy (image_url out) = true)) /\
  (forall E' filename,
      HOST_URL_CLEAN E' = HOST_URL_CLEAN E ->
      default_url E' filename = default_url E filename) /\
  (forall e w1,
      image_handler_body E u w = (Raise e, w1) ->
      image_handler E u w = message_reply_text E u (error_text e) None w1 /\
      (forall photos,
          message_photo u = Some photos ->
          reply_text E (error_text e) None = None ->
          image_handler E u w = (Ok tt, log (ReplyText (error_text e) None) w1))) /\
  (forall w1,
      image_handler_body E u w = (Ok tt, w1) -> image_handler E u w = (Ok tt, w1)).
Proof.
  split_and!.
  - intros file_path filename url w0. rewrite resolve_upload_spec. cbv zeta.
    destruct (open_rb E file_path); [by eexists _, _|].
    destruct (requests_post E _ filename 30) as [resp|e]; [|by eexists _, _].
    destruct (remote_file_url resp) as [f|] eqn:Hf; [|by eexists _, _].
    apply remote_file_url_Some in Hf as (_ & j & s & _ & _ & _ & _ & Hft).
    by eexists _, _.
  - intros E' filename Hhost. unfold default_url. by rewrite Hhost.
  - intros e w1 Hbody. unfold image_handler, catch. rewrite Hbody.
    split; [done|]. intros photos Hm Hreply.
    unfold message_reply_text, mbind, M_bind, message_attr, call, mret, M_ret.
    by rewrite Hm, Hreply.
  - intros w1 Hbody. unfold image_handler, catch. by rewrite Hbody.
Qed.

Lemma failures_are_contained_witness :
  image_handler Samples.host_down (Update (Some []) (Some 42)) Samples.one_session
  = (Ok tt, log (ReplyText (error_text (Exn "IndexError" "tuple index out of range")) None)
                Samples.one_session).
Proof.
  apply (proj1 (proj2 (proj2 (failures_are_contained Samples.host_down
                                (Update (Some []) (Some 42)) Samples.one_session)))
           (Exn "IndexError" "tuple index out of range") Samples.one_session eq_refl)
    with (photos := []); reflexivity.
Defined.

(** C9.  [upload_photo] leaves the session table as it found it on every
    path: it writes no row and looks the table up at most once.  The photo
    handler either leaves the table as it found it and writes no row, or has
    taken the fallback path (the photo saved, the upload not succeeded) and
    has written the one row of the new session. *)
Theorem only_fallback_writes (E : env) :
  (forall req w,
      let w' := snd (upload_photo E req w) in
      db w' = db w /\
      rows_written (new_events w w') = [] /\
      (length (lookups (new_events w w')) <= 1)%nat) /\
  (forall u w,
      let w' := snd (image_handler E u w) in
      (db w' = db w /\ rows_written (new_events w w') = []) \/
      (exists filename file_path w1 out w2 uid,
          download_photo E u w = (Ok (filename, file_path), w1) /\
          resolve_upload E file_path filename (JStr (default_url E filename)) w1
          = (Ok out, w2) /\
          uploaded_remote out = false /\
          effective_user_id u = Some uid /\
          let r := Row uid (token_urlsafe E 8) (default_url E filename) in
          rows_written (new_events w w') = [r] /\
          db w' = insert_or_replace r (db w))).
Proof.
  split.
  - intros req w. apply upload_photo_frame.
  - intros u w. cbv zeta.
    destruct (download_photo E u w) as [[[filename file_path]|e] w1] eqn:Hd.
    + destruct (resolve_upload E file_path filename (JStr (default_url E filename)) w1)
        as [[out|e] w2] eqn:Hr.
      * destruct (uploaded_remote out) eqn:Hup.
        -- left. destruct (remote_run E u w w1 w2 _ _ _ Hd Hr Hup) as (Hrows & Hdb & _).
           done.
        -- right. destruct (fallback_run E u w w1 w2 _ _ _ Hd Hr Hup)
             as (uid & Hu & _ & Hrows & Hdb & _).
           by exists filename, file_path, w1, out, w2, uid.
      * exfalso. rewrite resolve_upload_spec in Hr. cbv zeta in Hr.
        repeat case_match; discriminate.
    + left.
      assert (Hbody : image_handler_body E u w = (Raise e, w1)).
      { unfold image_handler_body, mbind, M_bind. by rewrite Hd. }
      destruct (quiet_download_photo E u w) as (Hdb1 & evs1 & Htr1 & Hrows1).
      rewrite Hd in Hdb1, Htr1. cbn [snd] in Hdb1, Htr1.
      unfold image_handler, catch. rewrite Hbody.
      destruct (quiet_message_reply_text E u (error_text e) None w1)
        as (Hdb2 & evs2 & Htr2 & Hrows2).
      rewrite Htr1, <- app_assoc in Htr2.
      rewrite (new_events_app _ _ _ Htr2), rows_written_app, Hrows1, Hrows2.
      split; [congruence | done].
Qed.

End HandlerFacts.

(** * Further properties *)

(** ** Start-up *)
Module StartupFacts.
Import Startup.

(** *** Stripping *)

Lemma lstrip_split (p : N -> bool) (s : ustr) :
  exists k, s = (k ++ lstrip p s)%list /\ forallb p k = true.
Proof.
  induction s as [|c s (k & Hs & Hk)]; [by exists []|]. simpl.
  destruct (p c) eqn:Hc.
  - exists (c :: k). simpl. rewrite Hc, Hk. split; [congruence | done].
  - by exists [].
Qed.

Lemma lstrip_head (p : N -> bool) (s : ustr) (c : N) :
  head (lstrip p s) = Some c -> p c = false.
Proof.
  induction s as [|x s IH]; simpl; [done|].
  destruct (p x) eqn:Hx; [exact IH|]. simpl. congruence.
Qed.


Lemma forallb_rev (p : N -> bool) (s : ustr) : forallb p (rev s) = forallb p s.
Proof.
  induction s as [|c s IH]; simpl; [done|].
  rewrite forallb_app, IH. simpl. by rewrite andb_true_r, andb_comm.
Qed.

Lemma elem_of_drop_inv (n : nat) (s : ustr) (c : N) : c ∈ drop n s -> c ∈ s.
Proof. intros H. rewrite <- (take_drop n s). apply elem_of_app. by right. Qed.

Lemma rstrip_split (p : N -> bool) (s : ustr) :
  exists k, s = (rstrip p s ++ k)%list /\ forallb p k = true.
Proof.
  unfold rstrip. destruct (lstrip_split p (rev s)) as (k & Hs & Hk).
  exists (rev k). split.
  - rewrite <- (rev_involutive s), Hs at 1. by rewrite rev_app_distr.
  - by rewrite forallb_rev.
Qed.

Lemma head_rev (s : ustr) : head (rev s) = last s.
Proof.
  induction s as [|x s IH] using rev_ind; [done|].
  by rewrite rev_app_distr, last_snoc.
Qed.

Lemma last_rev (s : ustr) : last (rev s) = head s.
Proof. by rewrite <- head_rev, rev_involutive. Qed.

Lemma rstrip_last (p : N -> bool) (s : ustr) (c : N) :
  last (rstrip p s) = Some c -> p c = false.
Proof. unfold rstrip. rewrite last_rev. apply lstrip_head. Qed.


Lemma rstrip_head (p : N -> bool) (s : ustr) (c : N) :
  head (rstrip p s) = Some c -> head s = Some c.
Proof.
  destruct (rstrip_split p s) as (k & Hs & _). intros H.
  rewrite Hs. by destruct (rstrip p s).
Qed.

(** A stripped str neither begins nor ends with a stripped character. *)
Lemma strip_ends (p : N -> bool) (s : ustr) (c : N) :
  head (strip p s) = Some c \/ last (strip p s) = Some c -> p c = false.
Proof.
  unfold strip. intros [H | H].
  - apply rstrip_head in H. by apply lstrip_head in H.
  - by apply rstrip_last in H.
Qed.


Lemma rstrip_all (p : N -> bool) (s : ustr) : forallb p s = true -> rstrip p s = [].
Proof.
  intros H. unfold rstrip. rewrite <- forallb_rev in H.
  induction (rev s) as [|x l IH]; simpl in *; [done|].
  apply andb_true_iff in H as [-> Hl]. by apply IH.
Qed.


(** *** [_mask_token] *)

(** X1.  Of a token of more than ten characters the mask shows the first
    four and the last four around three dots; what lies between them plays no
    part. *)
Theorem mask_hides_middle (first middle last' : ustr) :
  length first = 4%nat -> length last' = 4%nat -> (3 <= length middle)%nat ->
  _mask_token (Some (first ++ middle ++ last')%list)
  = (first ++ u "..." ++ last')%list.
Proof.
  intros Hf Hl Hm. unfold _mask_token.
  destruct (first ++ middle ++ last')%list as [|c t] eqn:Ht.
  { apply (f_equal length) in Ht. rewrite !length_app in Ht. simpl in Ht. lia. }
  rewrite <- Ht. clear c t Ht.
  assert (Hlen : length (first ++ middle ++ last')%list = (8 + length middle)%nat)
    by (rewrite !length_app; lia).
  rewrite Hlen.
  destruct (Nat.leb_spec (8 + length middle) 10) as [Hle|_]; [lia|].
  rewrite take_app_length' by done.
  replace (8 + length middle - 4)%nat with (length (first ++ middle)%list)
    by (rewrite length_app; lia).
  by rewrite (app_assoc first middle last'), drop_app_length.
Qed.

Lemma mask_hides_middle_witness :
  _mask_token (Some (u "1234" ++ u "567:AAF" ++ u "wxyz")%list)
  = (u "1234" ++ u "..." ++ u "wxyz")%list.
Proof. apply mask_hides_middle; [reflexivity | reflexivity | simpl; lia]. Defined.

(** X2.  Of a token of one to six characters the mask shows every
    character. *)
Theorem mask_shows_short_token (tkn : ustr) (c : N) :
  (length tkn <= 6)%nat -> c ∈ tkn -> c ∈ _mask_token (Some tkn).
Proof.
  intros Hlen Hc. unfold _mask_token.
  destruct tkn as [|x t] eqn:Ht; [by apply elem_of_nil in Hc|].
  rewrite <- Ht in *. clear x t Ht.
  destruct (Nat.leb_spec (length tkn) 10) as [_|Hgt]; [|lia].
  rewrite <- (take_drop 4 tkn) in Hc. apply elem_of_app in Hc as [Hc | Hc].
  - apply elem_of_app. by left.
  - apply elem_of_app. right. apply elem_of_app. right.
    replace (drop 4 tkn) with (drop (4 - (length tkn - 2)) (drop (length tkn - 2) tkn)) in Hc.
    + by apply elem_of_drop_inv in Hc.
    + rewrite drop_drop. f_equal. lia.
Qed.

Lemma mask_shows_short_token_witness : 98%N ∈ _mask_token (Some (u "abcde")).
Proof.
  apply mask_shows_short_token; [simpl; lia|].
  apply elem_of_cons. right. apply elem_of_cons. by left.
Defined.

(** X3.  The mask never has more than eleven characters, and stands for a
    missing or empty token by a fixed text. *)
Theorem mask_is_short (tkn : option ustr) :
  (length (_mask_token tkn) <= 11)%nat /\
  (nonempty tkn = false -> _mask_token tkn = u "<missing>").
Proof.
  split.
  - destruct tkn as [[|c t]|]; [simpl; lia| |simpl; lia].
    unfold _mask_token.
    destruct (Nat.leb_spec (length (c :: t)) 10) as [Hle|Hgt];
      rewrite !length_app, length_take, length_drop; simpl length; lia.
  - by destruct tkn as [[|c t]|].
Qed.

Lemma mask_is_short_witness : _mask_token (Some []) = u "<missing>".
Proof. apply (proj2 (mask_is_short (Some []))). reflexivity. Defined.

(** *** The [.env] file *)

Lemma read_dotenv_found (os : environ) (lines : list ustr) (val : ustr) :
  read_dotenv os lines = Some val ->
  exists line, line ∈ lines /\ read_line os line = Found val.
Proof.
  induction lines as [|l lines IH]; simpl; [done|].
  destruct (read_line os l) as [v| |e] eqn:Hl; [|intros H|done].
  - intros [= ->]. exists l. split; [by left | done].
  - destruct (IH H) as (line & Hin & Hline). exists line. split; [by right | done].
Qed.

Lemma dotenv_shape_nonempty (os : environ) (lines : list ustr) (val : ustr) :
  read_dotenv os lines = Some val -> val <> [].
Proof.
  intros H. destruct (read_dotenv_found os lines val H) as (line & _ & Hline).
  unfold read_line in Hline. cbv zeta in Hline.
  repeat case_match; try discriminate. injection Hline as <-.
  match goal with
  | Hn : nonempty (Some ?v) = true |- _ => by destruct v
  end.
Qed.

(** X4.  A token read from the [.env] file is not empty and neither begins
    nor ends with an apostrophe. *)
Theorem dotenv_token_shape (os : environ) (lines : list ustr) (val : ustr) :
  read_dotenv os lines = Some val ->
  val <> [] /\ head val <> Some (N_of_ascii "'"%char) /\
  last val <> Some (N_of_ascii "'"%char).
Proof.
  intros H. destruct (read_dotenv_found os lines val H) as (line & _ & Hline).
  unfold read_line in Hline. cbv zeta in Hline.
  repeat case_match; try discriminate. injection Hline as <-.
  match goal with
  | Hn : nonempty (Some (strip ?p ?s)) = true |- _ =>
      pose proof (strip_ends p s (N_of_ascii "'"%char)) as Hends;
      destruct (strip p s) eqn:Hv; [discriminate Hn|]
  end.
  split; [done|].
  split; intros Hq; (assert (is_chr "'"%char (N_of_ascii "'"%char) = false) as Hc;
                     [apply Hends; auto | discriminate Hc]).
Qed.

Lemma dotenv_token_shape_witness :
  head (u "7:AA") <> Some (N_of_ascii "'"%char).
Proof.
  apply (dotenv_token_shape accepting [u "# comment"; u "BOT_TOKEN='7:AA'"] (u "7:AA")).
  reflexivity.
Defined.







(** X6.  Start-up yields a token that is not empty or raises ValueError; a
    non-empty BOT_TOKEN of the environment is the token whatever the [.env]
    file holds; start-up raises exactly when the environment has no non-empty
    BOT_TOKEN and the file is absent or yields none. *)
Theorem bot_token_resolution (os : environ) (getenv : option ustr)
        (dotenv : option (list ustr)) :
  (forall t, bot_token os getenv dotenv = Ok t -> t <> []) /\
  (forall t, getenv = Some t -> t <> [] -> bot_token os getenv dotenv = Ok t) /\
  ((exists e, bot_token os getenv dotenv = Raise e) <->
   nonempty getenv = false /\
   (dotenv = None \/
    exists lines, dotenv = Some lines /\ read_dotenv os lines = None)).
Proof.
  split_and!.
  - intros t. unfold bot_token. cbv zeta. repeat case_match; intros [= <-]; done.
  - intros t -> Ht. unfold bot_token. destruct t; [done|]. reflexivity.
  - unfold bot_token. cbv zeta. split.
    + intros [e He]. destruct (nonempty getenv) eqn:Hg.
      { exfalso. destruct getenv as [[|c t]|]; discriminate. }
      split; [done|]. destruct dotenv as [lines|]; [|by left]. right.
      exists lines. split; [done|].
      destruct (read_dotenv os lines) as [val|] eqn:Hr; [|done]. exfalso.
      destruct (dotenv_shape_nonempty os lines val Hr). simpl in He.
      destruct val; [done | discriminate].
    + intros [Hg Hd]. rewrite Hg. cbn [negb].
      destruct Hd as [-> | (lines & -> & ->)];
        destruct getenv as [[|c t]|]; try discriminate; by eexists.
Qed.

Lemma bot_token_resolution_witness :
  bot_token accepting (Some (u "7:AA")) (Some [u "BOT_TOKEN=other"]) = Ok (u "7:AA").
Proof.
  apply (proj1 (proj2 (bot_token_resolution accepting (Some (u "7:AA"))
                         (Some [u "BOT_TOKEN=other"])))); [reflexivity | discriminate].
Defined.

(** *** The host URL *)

Lemma split_once_first (c : ascii) (h rest : ustr) :
  forallb (fun x => negb (is_chr c x)) h = true ->
  split_once c (h ++ N_of_ascii c :: rest)%list = (h, Some rest).
Proof.
  induction h as [|x h IH]; simpl.
  - intros _. unfold is_chr. by rewrite N.eqb_refl.
  - intros H. apply andb_true_iff in H as [Hx Hh].
    apply negb_true_iff in Hx. rewrite Hx, (IH Hh). done.
Qed.

(** X7.  When [urlparse] finds a network location, the clean URL is the
    scheme ([http] when there is none), the location and the path without its
    trailing slashes; it does not end with a slash unless the location
    does. *)
Theorem host_url_without_trailing_slash (HOST_URL : ustr) (parsed : parse_result)
        (c : N) :
  last (netloc parsed) = Some c -> is_chr "/"%char c = false ->
  host_url_clean HOST_URL parsed
  = ((if nonempty (Some (scheme parsed)) then scheme parsed else u "http") ++
     u "://" ++ netloc parsed ++ rstrip (is_chr "/"%char) (path parsed))%list /\
  last (host_url_clean HOST_URL parsed) <> Some (N_of_ascii "/"%char).
Proof.
  intros Hlast Hc.
  assert (Heq : host_url_clean HOST_URL parsed
                = ((if nonempty (Some (scheme parsed)) then scheme parsed else u "http") ++
                   u "://" ++ netloc parsed ++
                   rstrip (is_chr "/"%char) (path parsed))%list).
  { unfold host_url_clean. cbv zeta.
    destruct (netloc parsed) as [|x l] eqn:Hn; [discriminate|]. cbn [nonempty negb].
    by destruct (path parsed). }
  split; [exact Heq|]. rewrite Heq, !last_app.
  destruct (last (rstrip (is_chr "/"%char) (path parsed))) as [y|] eqn:Hy.
  - apply rstrip_last in Hy. intros [= ->]. discriminate Hy.
  - rewrite Hlast. intros [= ->]. discriminate Hc.
Qed.

Lemma host_url_without_trailing_slash_witness :
  host_url_clean (u "http://localhost/my_shop//")
    (ParseResult (u "http") (u "localhost") (u "/my_shop//"))
  = u "http://localhost/my_shop".
Proof.
  apply (host_url_without_trailing_slash (u "http://localhost/my_shop//")
           (ParseResult (u "http") (u "localhost") (u "/my_shop//"))
           (N_of_ascii "t"%char)); reflexivity.
Defined.

(** X8.  When [urlparse] finds no network location and HOST_URL is
    [host/rest] with no slash in [host], the clean URL is the scheme, [host],
    a slash and [rest] without its trailing slashes: for [host/], and for
    [host] followed by slashes only, it ends with a slash. *)
Theorem host_url_without_scheme (host rest : ustr) (parsed : parse_result) :
  netloc parsed = [] ->
  forallb (fun x => negb (is_chr "/"%char x)) host = true ->
  host_url_clean (host ++ u "/" ++ rest)%list parsed
  = ((if nonempty (Some (scheme parsed)) then scheme parsed else u "http") ++
     u "://" ++ host ++ u "/" ++ rstrip (is_chr "/"%char) rest)%list /\
  (forallb (is_chr "/"%char) rest = true ->
   last (host_url_clean (host ++ u "/" ++ rest)%list parsed)
   = Some (N_of_ascii "/"%char)).
Proof.
  intros Hn Hhost.
  assert (Heq : host_url_clean (host ++ u "/" ++ rest)%list parsed
                = ((if nonempty (Some (scheme parsed)) then scheme parsed else u "http") ++
                   u "://" ++ host ++ u "/" ++ rstrip (is_chr "/"%char) rest)%list).
  { unfold host_url_clean. cbv zeta. rewrite Hn. cbn [nonempty negb].
    change (host ++ u "/" ++ rest)%list with (host ++ N_of_ascii "/"%char :: rest)%list.
    by rewrite split_once_first. }
  split; [exact Heq|]. intros Hrest. rewrite Heq, (rstrip_all _ _ Hrest), app_nil_r.
  change (u "/") with [N_of_ascii "/"%char]. by rewrite !app_assoc, last_snoc.
Qed.

Lemma host_url_without_scheme_witness :
  host_url_clean (u "localhost" ++ u "/" ++ [])%list (ParseResult [] [] (u "localhost/"))
  = u "http://localhost/".
Proof.
  apply (host_url_without_scheme (u "localhost") [] (ParseResult [] [] (u "localhost/")));
    reflexivity.
Defined.

End StartupFacts.

(** ** The session table: laws of [put] and [get] *)
Module StoreLaws.
Import SessionStore SessionStoreFacts.

Lemma get_put_other (sid sid' : string) (u : Z) (ref : string) (t : table) :
  sid <> sid' -> get sid' (put sid u ref t) = get sid' t.
Proof.
  intros Hne. unfold get, put.
  by rewrite (select_insert_other (Row u sid ref) sid' t Hne).
Qed.

(** X9.  A [put] does not change what [get] returns for any other id. *)
Theorem put_leaves_other_ids (sid sid' : string) (u : Z) (ref : string) (t : table) :
  sid <> sid' -> get sid' (put sid u ref t) = get sid' t.
Proof. apply get_put_other. Qed.

Lemma put_leaves_other_ids_witness :
  get "b" (put "a" 1 "x" [Row 2 "b" "y"]) = get "b" [Row 2 "b" "y"].
Proof. apply put_leaves_other_ids. discriminate. Defined.

(** X10.  Of two [put]s under one id only the second leaves a trace: the
    table is the one the second [put] alone would give. *)
Theorem put_twice_is_put_last (sid : string) (u u' : Z) (ref ref' : string) (t : table) :
  put sid u' ref' (put sid u ref t) = put sid u' ref' t.
Proof.
  unfold put, insert_or_replace. cbn [session_id].
  rewrite List.filter_app, filter_out_idem. cbn [List.filter session_id].
  assert (has_id sid (Row u sid ref) = true) as -> by by apply has_id_true.
  cbn [negb]. by rewrite app_nil_r.
Qed.

Lemma filter_out_fresh (sid : string) (t : table) :
  sid ∉ map session_id t ->
  List.filter (fun r => negb (has_id sid r)) t = t.
Proof.
  induction t as [|r t IH]; simpl; [done|].
  rewrite not_elem_of_cons. intros [Hr Ht].
  assert (has_id sid r = false) as -> by (apply has_id_false; congruence).
  simpl. by rewrite IH.
Qed.

Lemma select_row_None (sid : string) (t : table) :
  select_row sid t = None <-> sid ∉ map session_id t.
Proof.
  unfold select_row. induction t as [|r t IH]; simpl.
  - split; [intros _; apply not_elem_of_nil | done].
  - destruct (has_id sid r) eqn:Hr.
    + apply has_id_true in Hr. split; [done|]. intros Hn. exfalso. apply Hn.
      rewrite <- Hr. by left.
    + apply has_id_false in Hr. rewrite IH, not_elem_of_cons.
      split; [intros H; split; [congruence | done] | by intros [_ H]].
Qed.

Lemma length_filter_out_present (sid : string) (t : table) :
  unique_ids t -> sid ∈ map session_id t ->
  S (length (List.filter (fun r => negb (has_id sid r)) t)) = length t.
Proof.
  unfold unique_ids. induction t as [|r t IH]; simpl.
  - intros _ H. by apply elem_of_nil in H.
  - rewrite NoDup_cons. intros [Hr Ht] Hin.
    destruct (has_id sid r) eqn:Hid; simpl.
    + apply has_id_true in Hid. subst sid. by rewrite filter_out_fresh.
    + apply has_id_false in Hid. f_equal. apply IH; [done|].
      apply elem_of_cons in Hin as [Heq | Hin]; [congruence | done].
Qed.

(** X11.  On a table with distinct session ids, a [put] under an id that is
    there keeps the number of rows and a [put] under a new id adds one row;
    the ids stay distinct. *)
Theorem put_size (sid : string) (u : Z) (ref : string) (t : table) :
  unique_ids t ->
  length (put sid u ref t)
  = match get sid t with
    | Some _ => length t
    | None => S (length t)
    end /\
  unique_ids (put sid u ref t).
Proof.
  intros Ht. split; [|by apply unique_insert].
  unfold put, insert_or_replace, get. cbn [session_id].
  rewrite length_app. simpl length.
  destruct (select_row sid t) as [r|] eqn:Hsel; simpl.
  - assert (sid ∈ map session_id t).
    { destruct (decide (sid ∈ map session_id t)) as [|Hn]; [done|].
      apply select_row_None in Hn. congruence. }
    rewrite <- (length_filter_out_present sid t) by done. lia.
  - apply select_row_None in Hsel. rewrite filter_out_fresh by done. lia.
Qed.

Lemma put_size_witness :
  length (put "a" 3 "z" [Row 1 "a" "x"; Row 2 "b" "y"]) = 2%nat.
Proof.
  apply (put_size "a" 3 "z" [Row 1 "a" "x"; Row 2 "b" "y"]).
  unfold unique_ids. simpl. repeat (apply NoDup_cons; split);
    rewrite ?not_elem_of_cons; try apply NoDup_nil_2;
    repeat split; try discriminate; apply not_elem_of_nil.
Defined.

Lemma puts_snoc (ops : list (string * Z * string)) (op : string * Z * string)
      (t : table) :
  puts (ops ++ [op]) t = put (fst (fst op)) (snd (fst op)) (snd op) (puts ops t).
Proof. unfold puts. by rewrite fold_left_app. Qed.

(** X12.  After a run of [put]s, [get] returns what the last [put] under
    that id stored, and what the table held before when the run has none. *)
Theorem last_put_wins (sid : string) (ops : list (string * Z * string)) (t : table) :
  get sid (puts ops t)
  = match List.find (fun op => String.eqb (fst (fst op)) sid) (rev ops) with
    | Some op => Some (snd (fst op), snd op)
    | None => get sid t
    end.
Proof.
  induction ops as [|[[k v] ref] ops IH] using rev_ind; [done|].
  rewrite puts_snoc, rev_app_distr. cbn [rev app List.find fst snd].
  destruct (String.eqb_spec k sid) as [->|Hne].
  - unfold get, put. by rewrite (select_insert_same (Row v sid ref)).
  - rewrite <- IH. by apply get_put_other.
Qed.

End StoreLaws.

(** ** The image field: what the pattern accepts, what the decoder takes *)
Module PayloadFacts.
Import Re ReFacts DataUriFacts.

Lemma string_of_app (a b : list ascii) :
  string_of_list_ascii (a ++ b)%list
  = string_of_list_ascii a +:+ string_of_list_ascii b.
Proof.
  induction a as [|c a IH]; [done|].
  change (string_of_list_ascii ((c :: a) ++ b)%list)
    with (String c (string_of_list_ascii (a ++ b)%list)).
  by rewrite IH.
Qed.

Lemma run_free (c : ascii) (l : list ascii) :
  existsb (Ascii.eqb c) (run (not_chr c) l) = false.
Proof.
  induction l as [|x l IH]; simpl; [done|].
  unfold not_chr at 1. destruct (Ascii.eqb x c) eqn:Hx; simpl; [done|].
  by rewrite Ascii.eqb_sym, Hx, IH.
Qed.

Lemma at_end_cases (l : list ascii) :
  at_end l = true -> l = [] \/ l = ["010"%char].
Proof.
  destruct l as [|c [|c' l]]; simpl; [by left | | done].
  destruct (Ascii.eqb_spec c "010"%char) as [->|]; [by right | done].
Qed.

(** What the hand-compiled pattern accepts has the shape of the pattern. *)
Lemma match_data_uri_shape (s : string) (groups : list string) :
  match_data_uri s = Some groups ->
  exists subtype payload tail,
    s = "data:image/" +:+ subtype +:+ ";base64," +:+ payload +:+ tail /\
    subtype <> "" /\
    has_chr ";" subtype = false /\
    has_chr "010" payload = false /\
    (tail = "" \/ tail = nl) /\
    groups = ["image/" +:+ subtype; payload].
Proof.
  unfold match_data_uri.
  destruct (strip _ (list_ascii_of_string s)) as [l1|] eqn:H1; [|done].
  destruct (strip _ l1) as [l2|] eqn:H2; [|done].
  destruct (run (not_chr ";") l2) as [|c sub] eqn:Hsub; [done|].
  destruct (strip _ (after (not_chr ";") l2)) as [l3|] eqn:H3; [|done].
  destruct (at_end (after dot l3)) eqn:Hend; [|done].
  intros [= <-].
  apply strip_Some in H1, H2, H3.
  exists (string_of_list_ascii (c :: sub)), (string_of_list_ascii (run dot l3)),
         (string_of_list_ascii (after dot l3)).
  split_and!.
  - rewrite <- (string_of_list_ascii_of_string s), H1, H2.
    rewrite (run_after (not_chr ";") l2), Hsub, H3.
    rewrite (run_after dot l3) at 1.
    by rewrite !string_of_app.
  - done.
  - unfold has_chr. rewrite list_ascii_of_string_of_list_ascii, <- Hsub. apply run_free.
  - unfold has_chr. rewrite list_ascii_of_string_of_list_ascii. apply run_free.
  - destruct (at_end_cases _ Hend) as [-> | ->]; [by left | by right].
  - reflexivity.
Qed.

(** X13.  [re.match] accepts an image exactly when it is
    [data:image/<subtype>;base64,<payload>], with a subtype that is not empty
    and has no semicolon and a payload without line feed, possibly followed by
    one final line feed; the groups are then the mime type and the payload. *)
Theorem data_uri_accepted_iff (s : string) (groups : list string) :
  rmatch data_uri_re s = Some groups <->
  exists subtype payload tail,
    s = "data:image/" +:+ subtype +:+ ";base64," +:+ payload +:+ tail /\
    subtype <> "" /\
    has_chr ";" subtype = false /\
    has_chr "010" payload = false /\
    (tail = "" \/ tail = nl) /\
    groups = ["image/" +:+ subtype; payload].
Proof.
  rewrite rmatch_data_uri. split; [apply match_data_uri_shape|].
  intros (subtype & payload & tail & -> & Hsub & Hsemi & Hnl & Htail & ->).
  by apply match_shape.
Qed.

(** *** The decoder *)
Import Base64.

Lemma alphabet_not_pad (c : ascii) :
  in_alphabet c = true -> Ascii.eqb c "="%char = false.
Proof.
  unfold in_alphabet. destruct (Ascii.eqb_spec c "="%char) as [->|]; [done | done].
Qed.

Lemma alphabet_ascii (c : ascii) : in_alphabet c = true -> is_ascii c = true.
Proof.
  unfold in_alphabet, a2b, is_ascii. repeat case_match; try done; intros _; lia.
Qed.

(** A character that is neither of the alphabet nor the padding is passed
    over by the decoder, whatever its state. *)
Lemma a2b_base64_skip (l1 l2 : list ascii) (c : ascii) :
  in_alphabet c = false -> Ascii.eqb c "="%char = false ->
  forall quad_pos leftchar pads out,
    a2b_base64 (l1 ++ c :: l2)%list quad_pos leftchar pads out
    = a2b_base64 (l1 ++ l2)%list quad_pos leftchar pads out.
Proof.
  intros Hc Hpad. unfold in_alphabet in Hc.
  induction l1 as [|x l1 IH]; intros q lc pads out.
  - simpl. rewrite Hpad. by destruct (a2b c).
  - simpl. repeat case_match; try done; apply IH.
Qed.

(** X14.  [base64.b64decode] passes over every ASCII character that is
    neither of the base64 alphabet nor [=]: with or without it the result,
    bytes or error, is the same. *)
Theorem b64decode_ignores_foreign (s1 s2 : string) (c : ascii) :
  is_ascii c = true -> in_alphabet c = false -> c <> "="%char ->
  b64decode (s1 +:+ String c s2) = b64decode (s1 +:+ s2).
Proof.
  intros Hasc Hc Hpad. unfold b64decode. rewrite !chars_app.
  cbn [list_ascii_of_string]. rewrite !forallb_app. cbn [forallb]. rewrite Hasc.
  cbn [andb].
  destruct (forallb is_ascii (list_ascii_of_string s1) &&
            forallb is_ascii (list_ascii_of_string s2)); [|done].
  apply a2b_base64_skip; [done|]. by apply Ascii.eqb_neq.
Qed.

Lemma b64decode_ignores_foreign_witness :
  b64decode ("iVBO" +:+ String " "%char "Rw0KGgo=") = b64decode ("iVBO" +:+ "Rw0KGgo=").
Proof. apply b64decode_ignores_foreign; [reflexivity | reflexivity | discriminate]. Defined.

End PayloadFacts.

(** ** The snapshot relay: every request *)
Module RelayLaws.
Import SessionStore SessionStoreFacts Re ReFacts DataUriFacts RelayFacts.



Lemma select_user_id_row (sid : string) (t : table) (uid : Z) :
  select_user_id sid t = Some uid ->
  exists r, r ∈ t /\ session_id r = sid /\ user_id r = uid.
Proof.
  unfold select_user_id, select_row.
  destruct (List.find (has_id sid) t) as [r|] eqn:Hf; [|discriminate].
  intros [= <-]. apply find_some in Hf as [Hin Hid].
  exists r. split_and!; [by apply list_elem_of_In | by apply has_id_true | done].
Qed.

(** X16.  A photo handed to [bot.send_photo] goes to the user of a row of
    the table whose session id is the one the request names, it is the
    decoded second group of the match of the image, and it goes under the
    fixed name and caption. *)
Theorem relay_sends_to_owner (E : env) (req : option json) (w : world)
        (uid : Z) (photo : list byte) (name caption : string) :
  SendPhoto uid photo name caption ∈ new_events w (snd (upload_photo E req w)) ->
  exists data session image r groups,
    req = Some data /\
    py_get data "session" = Ok session /\ py_get data "image" = Ok image /\
    r ∈ db w /\ sqlite_text E session = Ok (session_id r) /\ user_id r = uid /\
    re_match image = Ok (Some groups) /\
    Base64.b64decode (group 2 groups) = Ok photo /\
    name = snapshot_name /\ caption = snapshot_caption.
Proof.
  destruct req as [data|]; cbn [default from_option id]; unfold_relay;
    [|cbn; rewrite new_events_refl; intros H; by apply elem_of_nil in H].
  repeat case_match; simplify_eq; cbn [snd];
    rewrite ?new_events_refl, ?new_events_log1, ?new_events_log2; intros Hin;
    repeat (apply elem_of_cons in Hin as [Hin|Hin]; [try discriminate|]);
    try (by apply elem_of_nil in Hin).
  all: injection Hin as -> -> -> ->.
  all: match goal with
       | Hsel : select_user_id _ _ = Some _ |- _ =>
           apply select_user_id_row in Hsel as (r & Hr & Hsid & Huid)
       end.
  all: subst; by eexists _, _, _, r, _.
Qed.

Lemma relay_sends_to_owner_witness :
  exists r, r ∈ db Samples.one_session /\ user_id r = 7.
Proof.
  destruct (relay_sends_to_owner Samples.host_down Samples.png_snapshot
              Samples.one_session 7 Samples.png_signature snapshot_name
              snapshot_caption)
    as (data & session & image & r & groups & _ & _ & _ & Hr & _ & Hu & _).
  - vm_compute new_events. apply elem_of_cons. right. apply list_elem_of_singleton.
    reflexivity.
  - by exists r.
Defined.

(** X17.  [upload_photo] raises in three situations only: the body is a
    truthy JSON value that is not an object (no call is made); the session
    cannot be bound as a parameter of the lookup; the session is in the table
    and the image is not a str.  In the last two the lookup is the only call
    made. *)
Theorem relay_raises (E : env) (req : option json) (w w' : world) (e : exn) :
  upload_photo E req w = (Raise e, w') <->
  exists data,
    req = Some data /\ truthy data = true /\
    (py_get data "session" = Raise e /\ w' = w \/
     exists session image,
       py_get data "session" = Ok session /\ py_get data "image" = Ok image /\
       truthy session = true /\ truthy image = true /\
       w' = log (DbSelect session) w /\
       (sqlite_text E session = Raise e \/
        exists sid uid,
          sqlite_text E session = Ok sid /\
          select_user_id sid (db w) = Some uid /\
          re_match image = Raise e)).
Proof.
  split.
  - destruct req as [data|]; unfold_relay; cbv zeta; cbn [default from_option id];
      [|discriminate].
    destruct (truthy data) eqn:Ht; cbn [negb]; [|discriminate].
    destruct (py_get data "session") as [session|e1] eqn:Hs;
      [|intros [= <- <-]; exists data; auto].
    destruct (py_get data "image") as [image|e1] eqn:Hi.
    2:{ exfalso. destruct data; discriminate. }
    destruct (truthy session) eqn:Hts; cbn [negb orb]; [|discriminate].
    destruct (truthy image) eqn:Hti; cbn [negb]; [|discriminate].
    destruct (sqlite_text E session) as [sid|e1] eqn:Hb.
    2:{ intros [= <- <-]. exists data. split_and!; [done..|]. right.
        exists session, image. split_and!; auto. }
    destruct (select_user_id sid (db w)) as [uid|] eqn:Hsel; [|discriminate].
    destruct (re_match image) as [m|e1] eqn:Hm.
    + destruct m as [groups|]; [|discriminate].
      by destruct (Base64.b64decode _).
    + intros [= <- <-]. exists data. split_and!; [done..|]. right.
      exists session, image. split_and!; [done..|]. right. by exists sid, uid.
  - intros (data & -> & Ht & [[Hs ->] | (session & image & Hs & Hi & Hts & Hti & -> & Hc)]);
      unfold_relay; cbv zeta; cbn [default from_option id]; rewrite Ht, Hs; cbn [negb];
      [done|].
    rewrite Hi, Hts, Hti. cbn [negb orb].
    destruct Hc as [Hb | (sid & uid & Hb & Hsel & Hm)]; rewrite Hb; [done|].
    by rewrite Hsel, Hm.
Qed.

(** The match of an image with a well-formed subtype is decided by what
    follows [;base64,]. *)
Lemma match_after_subtype (sub rest : string) :
  sub <> "" ->
  has_chr ";" sub = false ->
  match_data_uri ("data:image/" +:+ sub +:+ ";base64," +:+ rest)
  = if at_end (after dot (list_ascii_of_string rest))
    then Some ["image/" +:+ sub; string_of_list_ascii (run dot (list_ascii_of_string rest))]
    else None.
Proof.
  intros Hsub Hsemi. unfold match_data_uri, has_chr in *.
  rewrite !chars_app.
  change (list_ascii_of_string "data:image/")
    with (list_ascii_of_string "data:" ++ list_ascii_of_string "image/")%list.
  rewrite <- !app_assoc.
  assert (Hs : forall pre x, strip pre (pre ++ x) = Some x)
    by (intros; by apply strip_Some).
  rewrite !Hs.
  set (Q := list_ascii_of_string rest).
  change (list_ascii_of_string ";base64," ++ Q)%list
    with (";"%char :: (list_ascii_of_string "base64," ++ Q)%list).
  destruct (run_stop ";" (list_ascii_of_string sub)
              (list_ascii_of_string "base64," ++ Q)%list Hsemi) as [-> ->].
  destruct (list_ascii_of_string sub) as [|c0 subl] eqn:Hl.
  { exfalso. apply Hsub. rewrite <- (string_of_list_ascii_of_string sub). by rewrite Hl. }
  change (";"%char :: (list_ascii_of_string "base64," ++ Q)%list)
    with (list_ascii_of_string ";base64," ++ Q)%list.
  rewrite Hs.
  destruct (at_end (after dot Q)); [|done].
  by rewrite <- Hl, <- chars_app, !string_of_list_ascii_of_string.
Qed.

(** X18.  The subtype of the image plays no part: two requests for one
    session whose images differ in the subtype only (each subtype not empty
    and free of semicolons) get the same answer and cause the same calls; the
    photo is handed over as [snapshot.jpg] whatever the subtype says. *)
Theorem relay_ignores_subtype (E : env) kvs1 kvs2 (sid sub1 sub2 rest : string)
        (w : world) :
  sid <> "" ->
  assoc "session" kvs1 = Some (JStr sid) -> assoc "session" kvs2 = Some (JStr sid) ->
  assoc "image" kvs1 = Some (JStr ("data:image/" +:+ sub1 +:+ ";base64," +:+ rest)) ->
  assoc "image" kvs2 = Some (JStr ("data:image/" +:+ sub2 +:+ ";base64," +:+ rest)) ->
  sub1 <> "" -> has_chr ";" sub1 = false ->
  sub2 <> "" -> has_chr ";" sub2 = false ->
  upload_photo E (Some (JObj kvs1)) w = upload_photo E (Some (JObj kvs2)) w.
Proof.
  intros Hsid Hs1 Hs2 Hi1 Hi2 Hsub1 Hsemi1 Hsub2 Hsemi2.
  rewrite (upload_photo_typed E kvs1 sid _ w Hs1 Hsid Hi1) by discriminate.
  rewrite (upload_photo_typed E kvs2 sid _ w Hs2 Hsid Hi2) by discriminate.
  rewrite !match_after_subtype by done.
  destruct (select_user_id sid (db w)); [|done].
  by destruct (at_end _).
Qed.

Lemma relay_ignores_subtype_witness :
  upload_photo Samples.host_down
    (Some (JObj (Samples.snapshot_fields "Kioqlc3rJ2E"
                   ("data:image/" +:+ "png" +:+ ";base64," +:+ "iVBORw0KGgo="))))
    Samples.one_session
  = upload_photo Samples.host_down
      (Some (JObj (Samples.snapshot_fields "Kioqlc3rJ2E"
                     ("data:image/" +:+ "svg+xml" +:+ ";base64," +:+ "iVBORw0KGgo="))))
      Samples.one_session.
Proof.
  apply (relay_ignores_subtype Samples.host_down _ _ "Kioqlc3rJ2E" "png" "svg+xml"
           "iVBORw0KGgo=" Samples.one_session);
    first [reflexivity | discriminate].
Defined.

End RelayLaws.

(** ** The decoder on payloads of the alphabet *)
Module DecoderLaws.
Import Base64 DataUriFacts PayloadFacts.

Lemma list_ind4 {A : Type} (P : list A -> Prop) :
  P [] -> (forall a, P [a]) -> (forall a b, P [a; b]) -> (forall a b c, P [a; b; c]) ->
  (forall a b c d l, P l -> P (a :: b :: c :: d :: l)) ->
  forall l, P l.
Proof.
  intros H0 H1 H2 H3 H4.
  assert (H : forall n l, (length l <= n)%nat -> P l).
  { induction n as [|n IH]; intros [|a [|b [|c [|d l]]]] Hl; simpl in Hl;
      try lia; auto.
    apply H4, IH. lia. }
  intros l. by apply (H (length l)).
Qed.

Lemma alphabet_value (c : ascii) : in_alphabet c = true -> exists v, a2b c = Some v.
Proof. unfold in_alphabet. destruct (a2b c) as [v|]; [by exists v | done]. Qed.

(** One character of the alphabet moves the decoder to the next position of
    the quad. *)
Lemma a2b_step (c : ascii) (v : Z) (l : list ascii) (q : nat) (lc : Z) (pads : nat)
      (out : list byte) :
  a2b c = Some v ->
  a2b_base64 (c :: l) q lc pads out =
  match q with
  | 0%nat => a2b_base64 l 1%nat v 0%nat out
  | 1%nat =>
      a2b_base64 l 2%nat (Z.land v 15) 0%nat
        (byte_of (Z.lor (Z.shiftl lc 2) (Z.shiftr v 4)) :: out)
  | 2%nat =>
      a2b_base64 l 3%nat (Z.land v 3) 0%nat
        (byte_of (Z.lor (Z.shiftl lc 4) (Z.shiftr v 2)) :: out)
  | _ => a2b_base64 l 0%nat 0 0%nat (byte_of (Z.lor (Z.shiftl lc 6) v) :: out)
  end.
Proof.
  intros Hv.
  assert (Hpad : Ascii.eqb c "="%char = false).
  { apply alphabet_not_pad. unfold in_alphabet. by rewrite Hv. }
  cbn [a2b_base64]. by rewrite Hpad, Hv.
Qed.

Lemma mod4_step (n : nat) : (S (S (S (S n))) mod 4 = n mod 4)%nat.
Proof.
  change (S (S (S (S n)))) with (4 + n)%nat. rewrite Nat.add_comm.
  apply (Nat.Div0.mod_add n 1 4).
Qed.

Lemma div4_step (n : nat) : (S (S (S (S n))) / 4 = S (n / 4))%nat.
Proof.
  replace (S (S (S (S n)))) with (n + 1 * 4)%nat by lia.
  rewrite Nat.div_add by done. lia.
Qed.

(** A run of characters of the alphabet, read from the start of a quad:
    the decoder is left at the position the length gives, having added three
    bytes for each full quad and one less than the position for the rest. *)
Lemma a2b_base64_run (l rest : list ascii) :
  forallb in_alphabet l = true ->
  forall lc out, exists lc' bs,
    a2b_base64 (l ++ rest) 0 lc 0 out
    = a2b_base64 rest (length l mod 4) lc' 0 (bs ++ out) /\
    length bs = (length l / 4 * 3 + pred (length l mod 4))%nat.
Proof.
  induction l as [|a|a b|a b c|a b c d l IH] using list_ind4; cbn [forallb];
    rewrite ?andb_true_iff; intros Hall lc out.
  - by exists lc, [].
  - destruct Hall as [Ha _]. apply alphabet_value in Ha as [va Ha].
    cbn [app]. rewrite (a2b_step a va) by done. by exists va, [].
  - destruct Hall as (Ha & Hb & _).
    apply alphabet_value in Ha as [va Ha]. apply alphabet_value in Hb as [vb Hb].
    cbn [app]. rewrite (a2b_step a va), (a2b_step b vb) by done. by eexists _, [_].
  - destruct Hall as (Ha & Hb & Hc & _).
    apply alphabet_value in Ha as [va Ha]. apply alphabet_value in Hb as [vb Hb].
    apply alphabet_value in Hc as [vc Hc].
    cbn [app]. rewrite (a2b_step a va), (a2b_step b vb), (a2b_step c vc) by done.
    by eexists _, [_; _].
  - destruct Hall as (Ha & Hb & Hc & Hd & Hl).
    apply alphabet_value in Ha as [va Ha]. apply alphabet_value in Hb as [vb Hb].
    apply alphabet_value in Hc as [vc Hc]. apply alphabet_value in Hd as [vd Hd].
    cbn [app length].
    rewrite (a2b_step a va), (a2b_step b vb), (a2b_step c vc), (a2b_step d vd) by done.
    rewrite mod4_step, div4_step.
    match goal with
    | |- context [a2b_base64 (l ++ rest)%list _ _ _ ?o] =>
        destruct (IH Hl 0 o) as (lc' & bs & -> & Hlen)
    end.
    eexists lc', (bs ++ [_; _; _])%list. rewrite <- app_assoc. split; [done|].
    rewrite length_app, Hlen. simpl. lia.
Qed.

Lemma length_chars (s : string) : length (list_ascii_of_string s) = String.length s.
Proof. induction s as [|c s IH]; simpl; [done | by rewrite IH]. Qed.

Lemma alphabet_all_ascii (l : list ascii) :
  forallb in_alphabet l = true -> forallb is_ascii l = true.
Proof.
  induction l as [|c l IH]; cbn [forallb]; [done|].
  rewrite !andb_true_iff. intros [Hc Hl]. split; [by apply alphabet_ascii | by apply IH].
Qed.

(** X19.  On a payload made of characters of the base64 alphabet only,
    [base64.b64decode] is decided by the length [n]: a multiple of four
    decodes to [3n/4] bytes; one more than a multiple of four is refused with
    the message on the number of data characters; two or three more are
    refused with [Incorrect padding], and decode once two, respectively one,
    [=] are appended, to one, respectively two, bytes more than the full
    quads give. *)
Theorem b64decode_length_law (s : string) :
  forallb in_alphabet (list_ascii_of_string s) = true ->
  let n := String.length s in
  match (n mod 4)%nat with
  | 0%nat => exists bs, b64decode s = Ok bs /\ length bs = (n / 4 * 3)%nat
  | 1%nat => b64decode s = Raise (bad_length (n / 4 * 3))
  | 2%nat =>
      b64decode s = Raise incorrect_padding /\
      exists bs, b64decode (s +:+ "==") = Ok bs /\ length bs = (n / 4 * 3 + 1)%nat
  | _ =>
      b64decode s = Raise incorrect_padding /\
      exists bs, b64decode (s +:+ "=") = Ok bs /\ length bs = (n / 4 * 3 + 2)%nat
  end.
Proof.
  intros Hall n. subst n. unfold b64decode. rewrite !chars_app, !forallb_app.
  rewrite (alphabet_all_ascii _ Hall). cbn [list_ascii_of_string forallb andb].
  change (is_ascii "=") with true. cbn [andb].
  rewrite <- length_chars.
  set (l := list_ascii_of_string s) in *.
  pose proof (Nat.mod_upper_bound (length l) 4 ltac:(done)) as Hlt.
  destruct (a2b_base64_run l [] Hall 0 []) as (lc0 & bs0 & H0 & Hlen0).
  destruct (a2b_base64_run l ["="%char; "="%char] Hall 0 []) as (lc2 & bs2 & H2 & Hlen2).
  destruct (a2b_base64_run l ["="%char] Hall 0 []) as (lc1 & bs1 & H1 & Hlen1).
  rewrite app_nil_r in H0. rewrite H0, H1, H2. clear H0 H1 H2.
  destruct (length l mod 4)%nat as [|[|[|[|k]]]]; [..|lia]; cbn [a2b_base64].
  - eexists. split; [done|]. rewrite length_rev, length_app, Hlen0. simpl. lia.
  - f_equal. f_equal. rewrite length_app, Hlen0. simpl. lia.
  - split; [done|]. cbn. eexists. split; [done|].
    rewrite length_rev, length_app, Hlen2. simpl. lia.
  - split; [done|]. cbn. eexists. split; [done|].
    rewrite length_rev, length_app, Hlen1. simpl. lia.
Qed.

Lemma b64decode_length_law_witness :
  exists bs, b64decode "aGVsbG8h" = Ok bs /\ length bs = 6%nat.
Proof. exact (b64decode_length_law "aGVsbG8h" eq_refl). Defined.

End DecoderLaws.

(** ** The photo handler: every update *)
Module HandlerLaws.
Import SessionStore SessionStoreFacts DataUriFacts RelayFacts TokenFacts HandlerFacts.

(** *** From the issued link to the relayed snapshot *)

Lemma token_not_empty (E : env) : token_urlsafe E 8 <> "".
Proof.
  intros H. apply (f_equal String.length) in H. unfold token_urlsafe in H.
  rewrite length_string_of_list in H.
  destruct (token_shape (token_bytes E 8) (token_bytes_length E 8)) as [Hlen _].
  rewrite Hlen in H. discriminate H.
Qed.

(** X20.  The session a photo has minted on the fallback path is one the
    relay honours: in the state the handler leaves, a snapshot posted under
    the token of the share link, with a PNG image whose payload decodes, is
    answered 200, and the one call of [bot.send_photo] it causes is handed
    the decoded bytes and the user who sent the photo. *)
Theorem issued_link_relays (E E' : env) (u : update) (w w1 w2 : world)
        filename file_path out kvs (payload : string) (image_bytes : list byte) :
  download_photo E u w = (Ok (filename, file_path), w1) ->
  resolve_upload E file_path filename (JStr (default_url E filename)) w1
  = (Ok out, w2) ->
  uploaded_remote out = false ->
  assoc "session" kvs = Some (JStr (token_urlsafe E 8)) ->
  assoc "image" kvs = Some (JStr ("data:image/png;base64," +:+ payload)) ->
  has_chr "010" payload = false ->
  Base64.b64decode payload = Ok image_bytes ->
  let w' := snd (image_handler E u w) in
  let run := upload_photo E' (Some (JObj kvs)) w' in
  exists uid,
    effective_user_id u = Some uid /\
    fst run = Ok (jsonify [("ok", JBool true)] 200) /\
    photos_sent (new_events w' (snd run))
    = [SendPhoto uid image_bytes snapshot_name snapshot_caption].
Proof.
  intros Hd Hr Hup Hs Hi Hnl Hdec. cbv zeta.
  destruct (fallback_run E u w w1 w2 _ _ _ Hd Hr Hup)
    as (uid & Hu & _ & _ & Hdb & _).
  exists uid. split; [exact Hu|].
  rewrite (upload_photo_typed E' kvs _ _ _ Hs (token_not_empty E) Hi) by discriminate.
  cbv zeta. unfold select_user_id. rewrite Hdb.
  rewrite (select_insert_same (Row uid (token_urlsafe E 8) (default_url E filename))).
  cbn [option_map user_id].
  rewrite (match_png payload Hnl). cbn [group Nat.sub nth]. rewrite Hdec.
  cbn [fst snd]. by rewrite new_events_log2.
Qed.

Lemma issued_link_relays_witness :
  exists uid,
    effective_user_id Samples.photo_update = Some uid /\
    photos_sent
      (new_events
         (snd (image_handler Samples.host_down Samples.photo_update Samples.one_session))
         (snd (upload_photo Samples.host_down
                 (Some (JObj (Samples.snapshot_fields
                                (token_urlsafe Samples.host_down 8)
                                "data:image/png;base64,iVBORw0KGgo=")))
                 (snd (image_handler Samples.host_down Samples.photo_update
                         Samples.one_session)))))
    = [SendPhoto uid Samples.png_signature snapshot_name snapshot_caption].
Proof.
  destruct (issued_link_relays Samples.host_down Samples.host_down Samples.photo_update
              Samples.one_session
              (snd (download_photo Samples.host_down Samples.photo_update
                      Samples.one_session))
              (snd (resolve_upload Samples.host_down "uploads/image_42_1700000000.jpg"
                      "image_42_1700000000.jpg"
                      (JStr (default_url Samples.host_down "image_42_1700000000.jpg"))
                      (snd (download_photo Samples.host_down Samples.photo_update
                              Samples.one_session))))
              "image_42_1700000000.jpg" "uploads/image_42_1700000000.jpg"
              (Outcome false
                 (JStr (default_url Samples.host_down "image_42_1700000000.jpg"))
                 (Some "connection refused"))
              (Samples.snapshot_fields (token_urlsafe Samples.host_down 8)
                 "data:image/png;base64,iVBORw0KGgo=")
              "iVBORw0KGgo=" Samples.png_signature
              eq_refl eq_refl eq_refl eq_refl eq_refl eq_refl eq_refl)
    as (uid & Hu & _ & Hsent).
  exists uid. split; [exact Hu | exact Hsent].
Defined.

(** *** The name of the saved file *)

Lemma digits_only_go (x : N) (s : string) :
  has_chr "_" s = false -> has_chr "_" (pretty_N_go x s) = false.
Proof.
  revert s. induction (N.lt_wf_0 x) as [x _ IH]. intros s Hs.
  destruct (decide (x = 0%N)) as [->|Hx]; [by rewrite pretty_N_go_0|].
  rewrite pretty_N_go_step by lia.
  apply IH; [apply N.div_lt; lia|].
  unfold has_chr in *. cbn [list_ascii_of_string existsb]. rewrite Hs, orb_false_r.
  unfold pretty_N_char. by repeat case_match.
Qed.

Lemma digits_only_N (x : N) : has_chr "_" (pretty x) = false.
Proof.
  unfold pretty, pretty_N. case_decide; [done|]. by apply digits_only_go.
Qed.

Lemma digits_only (z : Z) : has_chr "_" (pretty z) = false.
Proof.
  destruct z as [|p|p]; unfold pretty, pretty_Z; [done | apply digits_only_N |].
  unfold has_chr. rewrite chars_app, existsb_app. cbn [list_ascii_of_string existsb].
  apply (digits_only_N (Npos p)).
Qed.

Lemma split_at_sep (c : ascii) (a a' b b' : list ascii) :
  existsb (Ascii.eqb c) a = false -> existsb (Ascii.eqb c) a' = false ->
  (a ++ c :: b = a' ++ c :: b')%list -> a = a' /\ b = b'.
Proof.
  revert a'. induction a as [|x a IH]; intros [|x' a']; cbn [existsb app];
    rewrite ?orb_false_iff.
  - intros _ _ [= <-]. done.
  - intros _ [Hx _] [= <- _]. by rewrite Ascii.eqb_refl in Hx.
  - intros [Hx _] _ [= -> _]. by rewrite Ascii.eqb_refl in Hx.
  - intros [_ Ha] [_ Ha'] [= -> Heq]. destruct (IH a' Ha Ha' Heq) as [-> ->]. done.
Qed.

Lemma chars_inj (s s' : string) :
  list_ascii_of_string s = list_ascii_of_string s' -> s = s'.
Proof.
  intros H. rewrite <- (string_of_list_ascii_of_string s), H.
  apply string_of_list_ascii_of_string.
Qed.

(** X21.  The name under which a photo is saved determines the sender and
    the second of arrival: photos of two users, or of two different seconds,
    are never saved under one name. *)
Theorem file_name_injective (uid uid' timestamp timestamp' : Z) :
  file_name uid timestamp = file_name uid' timestamp' ->
  uid = uid' /\ timestamp = timestamp'.
Proof.
  unfold file_name. intros H. apply (f_equal list_ascii_of_string) in H.
  rewrite !chars_app in H. apply app_inv_head in H.
  change (list_ascii_of_string "_") with ["_"%char] in H. cbn [app] in H.
  apply split_at_sep in H as [Hu Ht]; [|apply digits_only..].
  apply app_inv_tail in Ht. apply chars_inj in Hu, Ht.
  split; by apply (inj pretty).
Qed.

Lemma file_name_injective_witness : 42 = 42 /\ 1700000000 = 1700000000.
Proof. apply (file_name_injective 42 42 1700000000 1700000000). reflexivity. Defined.

(** *** Updates the handler cannot answer *)

Lemma reply_run (E : env) (u : update) (photos : list string) (text : string)
      (markup : option keyboard) (w : world) :
  message_photo u = Some photos ->
  message_reply_text E u text markup w
  = call (ReplyText text markup) (reply_text E text markup) w.
Proof.
  intros Hm. unfold message_reply_text, mbind, M_bind, message_attr, mret, M_ret.
  by rewrite Hm.
Qed.

Lemma download_without_message (E : env) (u : update) (w : world) :
  message_photo u = None ->
  download_photo E u w = (Raise (none_has_no "photo"), w).
Proof.
  intros Hm. unfold download_photo, mbind, M_bind, message_attr, raise. by rewrite Hm.
Qed.

Lemma no_message_run (E : env) (u : update) (w : world) :
  message_photo u = None ->
  image_handler E u w = (Raise (none_has_no "reply_text"), w).
Proof.
  intros Hm. unfold image_handler, catch, image_handler_body, mbind, M_bind.
  rewrite (download_without_message E u w Hm).
  unfold message_reply_text, mbind, M_bind, message_attr, raise. by rewrite Hm.
Qed.

(** X22.  An update without a message (an edited message, a channel post)
    is not answered: the exception raised on reading the photo is caught, the
    report of it needs the message too, and the AttributeError of that report
    leaves the handler; no call has been made and the table is as it was. *)
Theorem no_message_escapes (E : env) (u : update) (w : world) :
  message_photo u = None ->
  image_handler E u w = (Raise (none_has_no "reply_text"), w).
Proof. apply no_message_run. Qed.

Lemma no_message_escapes_witness :
  image_handler Samples.host_up (Update None (Some 42)) Samples.one_session
  = (Raise (none_has_no "reply_text"), Samples.one_session).
Proof. apply no_message_escapes. reflexivity. Defined.

(** What the download block adds to the trace: no request to the remote
    host and no reply. *)
Lemma download_photo_trace (E : env) (u : update) (w : world) :
  exists evs,
    trace (snd (download_photo E u w)) = (trace w ++ evs)%list /\
    posts evs = [] /\ replies evs = [] /\ rows_written evs = [] /\
    db (snd (download_photo E u w)) = db w.
Proof.
  unfold download_photo, mbind, M_bind, message_attr, last_photo, user_id_of,
    call, mret, M_ret, raise, log.
  repeat case_match; simplify_eq; cbn [snd trace db];
    rewrite <- ?app_assoc; first [by eexists | by exists []; rewrite app_nil_r].
Qed.

Lemma filter_snoc {A : Type} (f : A -> bool) (l : list A) (x : A) :
  List.filter f (l ++ [x]) = (List.filter f l ++ if f x then [x] else [])%list.
Proof. rewrite List.filter_app. simpl. by destruct (f x). Qed.

(** X23.  When the photo cannot be fetched or saved, the handler makes no
    request to the remote host and writes no row; it makes one reply, the
    generic error text with the text of the exception, and returns normally
    when that reply is delivered. *)
Theorem download_failure_reported (E : env) (u : update) (w w1 : world) (e : exn)
        (photos : list string) :
  message_photo u = Some photos ->
  download_photo E u w = (Raise e, w1) ->
  let w' := snd (image_handler E u w) in
  posts (new_events w w') = [] /\
  rows_written (new_events w w') = [] /\
  db w' = db w /\
  replies (new_events w w') = [ReplyText (error_text e) None] /\
  fst (image_handler E u w)
  = match reply_text E (error_text e) None with
    | None => Ok tt
    | Some e' => Raise e'
    end.
Proof.
  intros Hm Hd. cbv zeta.
  destruct (download_photo_trace E u w) as (evs & Htr & Hposts & Hreplies & Hrows & Hdb).
  rewrite Hd in Htr, Hdb. cbn [snd] in Htr, Hdb.
  unfold image_handler, catch, image_handler_body, mbind, M_bind. rewrite Hd.
  rewrite (reply_run E u photos _ _ w1 Hm). unfold call.
  assert (Hev : new_events w (log (ReplyText (error_text e) None) w1)
                = (evs ++ [ReplyText (error_text e) None])%list).
  { apply new_events_app. unfold log. cbn [trace]. by rewrite Htr, <- app_assoc. }
  destruct (reply_text E (error_text e) None); cbn [fst snd]; rewrite Hev;
    unfold posts, replies in *; rewrite !filter_snoc, rows_written_app;
    rewrite ?Hposts, ?Hreplies, ?Hrows; done.
Qed.

Lemma download_failure_reported_witness :
  replies (new_events Samples.one_session
             (snd (image_handler Samples.host_up (Update (Some []) (Some 42))
                     Samples.one_session)))
  = [ReplyText (error_text (Exn "IndexError" "tuple index out of range")) None].
Proof.
  apply (download_failure_reported Samples.host_up (Update (Some []) (Some 42))
           Samples.one_session Samples.one_session
           (Exn "IndexError" "tuple index out of range") []);
    reflexivity.
Defined.

(** *** How a run ends *)

Lemma call_last (ev : event) (outcome : option exn) (w : world) :
  last (trace (snd (call ev outcome w))) = Some ev /\
  fst (call ev outcome w) = match outcome with None => Ok tt | Some e => Raise e end.
Proof. unfold call, log. destruct outcome; cbn [fst snd trace]; by rewrite last_snoc. Qed.

(** The body of the handler, once the photo is saved, ends with a reply. *)
Lemma body_ends_with_reply (E : env) (u : update) (w w1 : world) filename file_path :
  download_photo E u w = (Ok (filename, file_path), w1) ->
  exists text markup w3,
    image_handler_body E u w
    = call (ReplyText text markup) (reply_text E text markup) w3.
Proof.
  intros Hd.
  destruct (download_photo_ok E u w w1 _ _ Hd) as (uid & photos & Hu & Hm & Hfn).
  destruct (resolve_upload E file_path filename (JStr (default_url E filename)) w1)
    as [[out|e] w2] eqn:Hr.
  2:{ exfalso. rewrite resolve_upload_spec in Hr. cbv zeta in Hr.
      repeat case_match; discriminate. }
  rewrite (image_handler_body_steps E u w w1 w2 _ _ _ Hd Hr).
  destruct (uploaded_remote out) eqn:Hup.
  - rewrite (issue_links_remote E u out w2 photos Hm Hup). by eexists _, _, _.
  - pose proof (resolve_upload_fallback_url _ _ _ _ _ _ _ Hr Hup) as Hurl.
    rewrite (issue_links_fallback E u out w2 uid photos _ Hu Hm Hup Hurl).
    by eexists _, _, _.
Qed.

(** X24.  A run of the handler that returns has ended with a reply that was
    delivered; a run that raises has either met an update without a message,
    and made no call, or has ended with a reply whose exception it raises: the
    handler never ends in silence on an update that has a message. *)
Theorem handler_ends_with_reply (E : env) (u : update) (w : world) :
  let run := image_handler E u w in
  match fst run with
  | Ok _ =>
      exists text markup,
        last (trace (snd run)) = Some (ReplyText text markup) /\
        reply_text E text markup = None
  | Raise e =>
      (message_photo u = None /\ snd run = w) \/
      exists text markup,
        last (trace (snd run)) = Some (ReplyText text markup) /\
        reply_text E text markup = Some e
  end.
Proof.
  cbv zeta.
  destruct (message_photo u) as [photos|] eqn:Hm.
  2:{ rewrite (no_message_run E u w Hm). cbn [fst snd]. by left. }
  assert (Hreport : forall e w1,
    image_handler_body E u w = (Raise e, w1) ->
    image_handler E u w
    = call (ReplyText (error_text e) None) (reply_text E (error_text e) None) w1).
  { intros e w1 Hbody. unfold image_handler, catch. rewrite Hbody.
    by apply reply_run with photos. }
  assert (Hrun : exists text markup w3,
    image_handler E u w
    = call (ReplyText text markup) (reply_text E text markup) w3).
  { destruct (download_photo E u w) as [[[filename file_path]|e] w1] eqn:Hd.
    - destruct (body_ends_with_reply E u w w1 _ _ Hd) as (text & markup & w3 & Hbody).
      destruct (reply_text E text markup) as [e|] eqn:Hreply.
      + unfold call in Hbody. rewrite (Hreport e _ Hbody). by eexists _, _, _.
      + exists text, markup, w3. unfold image_handler, catch. rewrite Hbody, Hreply.
        unfold call. done.
    - assert (Hbody : image_handler_body E u w = (Raise e, w1)).
      { unfold image_handler_body, mbind, M_bind. by rewrite Hd. }
      rewrite (Hreport e _ Hbody). by eexists _, _, _. }
  destruct Hrun as (text & markup & w3 & ->).
  destruct (call_last (ReplyText text markup) (reply_text E text markup) w3)
    as [Hlast ->].
  destruct (reply_text E text markup) as [e|] eqn:Hreply.
  - right. by exists text, markup.
  - by exists text, markup.
Qed.

(** *** The upload attempt *)

(** X25.  The upload attempt makes at most one request: none when the saved
    file cannot be opened, and the text of that exception is then the upload
    error; otherwise one, to [<host>/home.php], with the file name and a
    timeout of 30 seconds.  A response with an error status is a failure
    without error text, whatever its body holds. *)
Theorem upload_attempt_requests (E : env) (file_path filename : string) (url : json)
        (w : world) :
  let run := resolve_upload E file_path filename url w in
  posts (new_events w (snd run))
  = match open_rb E file_path with
    | Some _ => []
    | None => [Post (HOST_URL_CLEAN E +:+ "/home.php") filename 30]
    end /\
  (forall e, open_rb E file_path = Some e ->
     fst run = Ok (Outcome false url (Some (exn_str e)))) /\
  (forall resp,
     open_rb E file_path = None ->
     requests_post E (HOST_URL_CLEAN E +:+ "/home.php") filename 30 = Ok resp ->
     ok resp = false ->
     fst run = Ok (Outcome false url None)).
Proof.
  cbv zeta. rewrite resolve_upload_spec. cbv zeta. split_and!.
  - destruct (open_rb E file_path); cbn [snd]; [by rewrite new_events_log1|].
    destruct (requests_post E _ filename 30) as [resp|e]; [|cbn [snd]; by rewrite new_events_log2].
    by destruct (remote_file_url resp); cbn [snd]; rewrite new_events_log2.
  - by intros e ->.
  - intros resp -> -> Hok. unfold remote_file_url. by rewrite Hok.
Qed.

Lemma upload_attempt_requests_witness :
  fst (resolve_upload
         (Samples.env_of (Ok (Response false (Ok Samples.accepted_body))) None None)
         "uploads/a.jpg" "a.jpg" (JStr "http://shareimage.42web.io/uploads/a.jpg")
         Samples.one_session)
  = Ok (Outcome false (JStr "http://shareimage.42web.io/uploads/a.jpg") None).
Proof.
  apply (proj2 (proj2 (upload_attempt_requests
                         (Samples.env_of (Ok (Response false (Ok Samples.accepted_body)))
                            None None)
                         "uploads/a.jpg" "a.jpg"
                         (JStr "http://shareimage.42web.io/uploads/a.jpg")
                         Samples.one_session))
           (Response false (Ok Samples.accepted_body)));
    reflexivity.
Defined.

End HandlerLaws.
